(** * Qt-QrCodeGenerator: the renderer of [src/QrCodeGenerator.cpp]

    A shallow embedding of the class [QrCodeGenerator]: the three entry
    points [generateQr], [paintQr] and [generateSvgQr], and the three
    projections [toSvgString], [qrCodePaint] and [qrCodeToImage] they
    delegate to, followed by the properties of the specification.

    Conventions of the embedding.
    - [int] and [quint16] values are integers of [Z].  The C++ code computes
      on [int] after the usual promotion of [quint16]; with a border below
      65536 and a symbol side of at most 177 no operation of the file
      leaves the range of [int], so no wrap-around occurs.
    - A [QString] built through a [QTextStream] is a [string]; the stream
      operator [<<] appends.
    - [qreal] is kept abstract: the class [QReal] lists the operations the
      code performs on it, so that statements about the geometry hold for
      every implementation of the arithmetic.
    - The library [qrcodegen], Qt's painter and [QString::toUtf8] are not
      part of the file; they enter as interfaces. *)

From Stdlib Require Import ZArith List String Ascii Bool QArith Lia.
From Stdlib Require Import DecimalString Sorting.Sorted.
From Stdlib Require DecimalPos DecimalZ.
From Stdlib Require Import Lqa.
Import ListNotations.

Open Scope string_scope.
Open Scope Z_scope.

(* ================================================================== *)
(** ** Text: [QString] and [QTextStream] *)

Definition QString : Type := string.

(** The character [U+0022], which the raw literals of the source contain. *)
Definition dquote : ascii := "034"%char.

(** [raw s] is the C++ raw literal [R"(...)"] whose text is [s] with every
    apostrophe standing for a double quote: the literals of
    [toSvgString] contain double quotes and no apostrophe. *)
Fixpoint raw (s : string) : string :=
  match s with
  | EmptyString => EmptyString
  | String c rest =>
      String (if Ascii.eqb c "'"%char then dquote else c) (raw rest)
  end.

(** [QTextStream::operator<<(int)]: decimal digits, a leading minus sign
    for a negative number, no padding. *)
Definition decimal (n : Z) : string :=
  NilZero.string_of_int (Z.to_int n).

(** [sb << "text"] and [sb << number] on a stream that writes to a string. *)
Definition put (sb : QString) (text : string) : QString := sb ++ text.
Definition putInt (sb : QString) (n : Z) : QString := sb ++ decimal n.

Notation "sb << t" := (put sb t) (at level 41, left associativity).
Notation "sb <<# n" := (putInt sb n) (at level 41, left associativity).

(** Occurrences of a character in a string. *)
Fixpoint countChar (c : ascii) (s : string) : nat :=
  match s with
  | EmptyString => O
  | String d rest => ((if Ascii.eqb c d then 1 else 0) + countChar c rest)%nat
  end.

(* ================================================================== *)
(** ** The symbol: [qrcodegen::QrCode] *)

(** Modelled from the spec: the class [qrcodegen::QrCode] of the external
    encoder, of which the renderer uses the two accessors [getSize()] and
    [getModule(x, y)] ("a square boolean grid with a size accessor and a
    moduleAt(x,y) accessor"). *)
Record QrCode : Type := {
  getSize : Z;
  getModule : Z -> Z -> bool
}.

(** Error-correction levels, [qrcodegen::QrCode::Ecc]. *)
Inductive Ecc : Type := LOW | MEDIUM | QUARTILE | HIGH.

(** A symbol given by its rows, top row first; a coordinate outside the
    grid reads as light. *)
Definition symbolOfRows (side : Z) (rows : list (list bool)) : QrCode :=
  {| getSize := side;
     getModule := fun x y =>
       (0 <=? x) && (x <? side) && (0 <=? y) && (y <? side)
       && nth (Z.to_nat x) (nth (Z.to_nat y) rows []) false |}.

(* ================================================================== *)
(** ** Runs: results, exceptions and the log of accessor calls *)

(** One call [qr.getModule(x, y)]. *)
Abbreviation Probe := (Z * Z)%type (only parsing).

Section Runs.

(** The type of C++ exceptions. *)
Variable Exn : Type.

Inductive Outcome (A : Type) : Type :=
| Returned (a : A)
| Thrown (e : Exn).

(** A computation starts with the log of the accessor calls made so far
    and ends by returning or throwing, with the log extended. *)
Definition Run (A : Type) : Type := list Probe -> Outcome A * list Probe.

Definition ret {A : Type} (a : A) : Run A :=
  fun log => (Returned A a, log).

Definition bind {A B : Type} (m : Run A) (k : A -> Run B) : Run B :=
  fun log =>
    match m log with
    | (Returned _ a, log') => k a log'
    | (Thrown _ e, log') => (Thrown B e, log')
    end.

(** A call of an external function that returns or throws. *)
Definition external {A : Type} (o : Outcome A) : Run A :=
  fun log => (o, log).

(** [qr.getModule(x, y)], logged. *)
Definition callGetModule (qr : QrCode) (x y : Z) : Run bool :=
  fun log => (Returned bool (getModule qr x y), (log ++ [(x, y)])%list).

(** [for (int i = from; i < from + count; i++) body], the loop state
    threaded through the iterations. *)
Fixpoint forFrom {S : Type} (count : nat) (i : Z)
    (body : Z -> S -> Run S) (s : S) : Run S :=
  match count with
  | O => ret s
  | Datatypes.S k => bind (body i s) (forFrom k (i + 1) body)
  end.

(** [for (int i = 0; i < bound; i++) body]: [bound] is not changed by the
    body, so the loop makes [bound] iterations, none when [bound <= 0]. *)
Definition forInt {S : Type} (bound : Z) (body : Z -> S -> Run S) (s : S)
    : Run S :=
  forFrom (Z.to_nat bound) 0 body s.

End Runs.

Arguments Returned {Exn A} a.
Arguments Thrown {Exn A} e.
Arguments ret {Exn A} a.
Arguments bind {Exn A B} m k.
Arguments external {Exn A} o.
Arguments callGetModule {Exn} qr x y.
Arguments forFrom {Exn S} count i body s.
Arguments forInt {Exn S} bound body s.

Notation "x <- m ;; k" := (bind m (fun x => k))
  (at level 61, m at next level, right associativity).

(* ================================================================== *)
(** ** [QrCodeGenerator::toSvgString] *)

Section Svg.

Variable Exn : Type.

Definition toSvgString (qr : QrCode) (border : Z) : Run Exn QString :=
  let sb : QString := EmptyString in
  let sb := sb
    << raw "<?xml version='1.0' encoding='UTF-8'?>"
    << raw "<!DOCTYPE svg PUBLIC '-//W3C//DTD SVG 1.1//EN' 'http://www.w3.org/Graphics/SVG/1.1/DTD/svg11.dtd'>"
    << raw "<svg xmlns='http://www.w3.org/2000/svg' version='1.1' viewBox='0 0 "
    <<# (getSize qr + border * 2) << " " <<# (getSize qr + border * 2)
    << raw "' stroke='none'><rect width='100%' height='100%' fill='#FFFFFF'/><path d='" in
  sb <- forInt (getSize qr) (fun y sb =>
          forInt (getSize qr) (fun x sb =>
            dark <- callGetModule qr x y ;;
            if dark
            then ret (sb << (if (x =? 0) && (y =? 0) then EmptyString else " ")
                         << "M" <<# (x + border) << "," <<# (y + border)
                         << "h1v1h-1z")
            else ret sb) sb) sb ;;
  let sb := sb << raw "' fill='#000000'/></svg>" in
  ret sb.

End Svg.

Arguments toSvgString {Exn} qr border.

(* ================================================================== *)
(** ** [qreal], and the painter of Qt *)

(** The operations of the source on [qreal] (a [double]): the conversion of
    an [int], a decimal literal (given by the rational it denotes),
    division and subtraction. *)
Class QReal (R : Type) : Type := {
  qreal_of_int : Z -> R;
  qreal_literal : Q -> R;
  qreal_div : R -> R -> R;
  qreal_sub : R -> R -> R
}.

(** The arithmetic read exactly, without rounding. *)
#[export] Instance QReal_exact : QReal Q := {|
  qreal_of_int := inject_Z;
  qreal_literal := fun q => q;
  qreal_div := Qdiv;
  qreal_sub := Qminus
|}.

(** [Qt::GlobalColor], [Qt::BrushStyle], [Qt::PenStyle], [QImage::Format]:
    the values the source names and the defaults of Qt. *)
Inductive GlobalColor : Type := white | black.
Inductive BrushStyle : Type := NoBrush | SolidPattern.
Inductive PenStyle : Type := NoPen | SolidLine.
Inductive Format : Type := Format_ARGB32.

Record QBrush : Type := { brushStyle : BrushStyle; brushColor : GlobalColor }.
Record QPen : Type := { penStyle : PenStyle; penColor : GlobalColor }.

(** [QBrush(style)] and [QPen(style)]: the colour defaults to black. *)
Definition newBrush (style : BrushStyle) : QBrush :=
  {| brushStyle := style; brushColor := black |}.
Definition setColor (b : QBrush) (c : GlobalColor) : QBrush :=
  {| brushStyle := brushStyle b; brushColor := c |}.
Definition newPen (style : PenStyle) : QPen :=
  {| penStyle := style; penColor := black |}.

Section Painter.

Variable R : Type.

(** One step of a coordinate transform, in the order of the calls. *)
Inductive TransformStep : Type :=
| ScaleBy (sx sy : R)
| TranslateBy (dx dy : R).

(** [QRectF(x, y, w, h)]. *)
Record QRectF : Type := {
  rectX : R; rectY : R; rectWidth : R; rectHeight : R
}.

(** A rectangle sent to the paint device, with the transform, the brush
    and the pen of the painter at the time of the call. *)
Record DrawCommand : Type := {
  drawnRect : QRectF;
  drawnUnder : list TransformStep;
  drawnBrush : QBrush;
  drawnPen : QPen
}.

(** The state of a [QPainter]: its coordinate transform (the steps
    applied since the identity, oldest first), brush, pen and
    anti-aliasing hint, and the commands it has issued to its device. *)
Record QPainter : Type := {
  worldTransform : list TransformStep;
  brush : QBrush;
  pen : QPen;
  antialiasing : bool;
  issued : list DrawCommand
}.

Definition scale (p : QPainter) (sx sy : R) : QPainter :=
  {| worldTransform := worldTransform p ++ [ScaleBy sx sy];
     brush := brush p; pen := pen p; antialiasing := antialiasing p;
     issued := issued p |}.

Definition translate (p : QPainter) (dx dy : R) : QPainter :=
  {| worldTransform := worldTransform p ++ [TranslateBy dx dy];
     brush := brush p; pen := pen p; antialiasing := antialiasing p;
     issued := issued p |}.

Definition setBrush (p : QPainter) (b : QBrush) : QPainter :=
  {| worldTransform := worldTransform p;
     brush := b; pen := pen p; antialiasing := antialiasing p;
     issued := issued p |}.

Definition setPen (p : QPainter) (q : QPen) : QPainter :=
  {| worldTransform := worldTransform p;
     brush := brush p; pen := q; antialiasing := antialiasing p;
     issued := issued p |}.

Definition drawRect (p : QPainter) (rect : QRectF) : QPainter :=
  {| worldTransform := worldTransform p;
     brush := brush p; pen := pen p; antialiasing := antialiasing p;
     issued := issued p ++
       [{| drawnRect := rect; drawnUnder := worldTransform p;
           drawnBrush := brush p; drawnPen := pen p |}] |}.

(** What has been done to the pixels of an image, oldest first. *)
Inductive ImageOp : Type :=
| Filled (c : GlobalColor)
| Painted (d : DrawCommand).

Record QImage : Type := {
  width : Z;
  height : Z;
  format : Format;
  content : list ImageOp
}.

(** [QImage(w, h, format)]: the pixels are not initialised. *)
Definition newImage (w h : Z) (f : Format) : QImage :=
  {| width := w; height := h; format := f; content := [] |}.

(** [image.fill(c)] sets every pixel. *)
Definition fill (image : QImage) (c : GlobalColor) : QImage :=
  {| width := width image; height := height image; format := format image;
     content := [Filled c] |}.

(** [QPainter painter(&image)]: identity transform, no brush, a solid
    black pen, no anti-aliasing, nothing issued yet. *)
Definition beginPaint (image : QImage) : QPainter :=
  {| worldTransform := []; brush := newBrush NoBrush; pen := newPen SolidLine;
     antialiasing := false; issued := [] |}.

(** [painter.end()]: the image the painter was opened on has received the
    commands issued. *)
Definition endPaint (image : QImage) (p : QPainter) : QImage :=
  {| width := width image; height := height image; format := format image;
     content := content image ++ map Painted (issued p) |}.

End Painter.

Arguments ScaleBy {R} sx sy.
Arguments TranslateBy {R} dx dy.
Arguments Build_QRectF {R} _ _ _ _.
Arguments rectX {R} _.
Arguments rectY {R} _.
Arguments rectWidth {R} _.
Arguments rectHeight {R} _.
Arguments Build_DrawCommand {R} _ _ _ _.
Arguments drawnRect {R} _.
Arguments drawnUnder {R} _.
Arguments drawnBrush {R} _.
Arguments drawnPen {R} _.
Arguments Build_QPainter {R} _ _ _ _ _.
Arguments worldTransform {R} _.
Arguments brush {R} _.
Arguments pen {R} _.
Arguments antialiasing {R} _.
Arguments issued {R} _.
Arguments scale {R} p sx sy.
Arguments translate {R} p dx dy.
Arguments setBrush {R} p b.
Arguments setPen {R} p q.
Arguments drawRect {R} p rect.
Arguments Filled {R} c.
Arguments Painted {R} d.
Arguments Build_QImage {R} _ _ _ _.
Arguments width {R} _.
Arguments height {R} _.
Arguments format {R} _.
Arguments content {R} _.
Arguments newImage {R} w h f.
Arguments fill {R} image c.
Arguments beginPaint {R} image.
Arguments endPaint {R} image p.

(* ================================================================== *)
(** ** [QrCodeGenerator::qrCodePaint] and [QrCodeGenerator::qrCodeToImage] *)

Section Raster.

Variable Exn : Type.
Context {R : Type} `{QReal R}.

Definition qrCodePaint (painter : QPainter R) (qrCode : QrCode)
    (border size : Z) : Run Exn (QPainter R) :=
  let scale_ : R :=
    qreal_div (qreal_of_int size) (qreal_of_int (getSize qrCode + 2 * border)) in
  let painter := scale painter scale_ scale_ in
  let painter :=
    translate painter
      (qreal_sub (qreal_of_int border) (qreal_literal 0.02))
      (qreal_sub (qreal_of_int border) (qreal_literal 0.02)) in
  forInt (getSize qrCode) (fun y painter =>
    forInt (getSize qrCode) (fun x painter =>
      dark <- callGetModule qrCode x y ;;
      if dark
      then
        let rect :=
          Build_QRectF (qreal_of_int x) (qreal_of_int y)
                       (qreal_literal 1.04) (qreal_literal 1.04) in
        ret (drawRect painter rect)
      else ret painter) painter) painter.

Definition qrCodeToImage (qrCode : QrCode) (border size : Z)
    : Run Exn (QImage R) :=
  let image := newImage size size Format_ARGB32 in
  let image := fill image white in
  let painter := beginPaint image in
  let brush_ := newBrush SolidPattern in
  let brush_ := setColor brush_ black in
  let painter := setBrush painter brush_ in
  let painter := setPen painter (newPen NoPen) in
  painter <- qrCodePaint painter qrCode border size ;;
  ret (endPaint image painter).

End Raster.

Arguments qrCodePaint {Exn R _} painter qrCode border size.
Arguments qrCodeToImage {Exn R _} qrCode border size.

(* ================================================================== *)
(** ** The entry points *)

(** [QByteArray]: the bytes of the text. *)
Definition QByteArray : Type := list Byte.byte.

Section EntryPoints.

Variable Exn : Type.
Context {R : Type} `{QReal R}.

(** [QString::toUtf8], of Qt. *)
Variable toUtf8 : QString -> QByteArray.

(** Modelled from the spec: [qrcodegen::QrCode::encodeText], applied to
    the bytes of the text and an error-correction level; it "returns a
    Symbol, or fails if the text cannot be encoded at the requested
    level". *)
Variable encodeText : QByteArray -> Ecc -> Outcome Exn QrCode.

Definition generateQr (data : QString) (size borderSize : Z)
    (errorCorrection : Ecc) : Run Exn (QImage R) :=
  let b := toUtf8 data in
  qrCode <- external (encodeText b errorCorrection) ;;
  qrCodeToImage qrCode borderSize size.

(** The painter is passed by pointer and changed in place: the run
    returns its state at the end of the call. *)
Definition paintQr (painter : QPainter R) (data : QString)
    (size borderSize : Z) (errorCorrection : Ecc) : Run Exn (QPainter R) :=
  let b := toUtf8 data in
  qrCode <- external (encodeText b errorCorrection) ;;
  qrCodePaint painter qrCode borderSize size.

Definition generateSvgQr (data : QString) (borderSize : Z)
    (errorCorrection : Ecc) : Run Exn QString :=
  let b := toUtf8 data in
  qrCode <- external (encodeText b errorCorrection) ;;
  toSvgString qrCode borderSize.

End EntryPoints.

Arguments generateQr {Exn R _} toUtf8 encodeText data size borderSize errorCorrection.
Arguments paintQr {Exn R _} toUtf8 encodeText painter data size borderSize errorCorrection.
Arguments generateSvgQr {Exn} toUtf8 encodeText data borderSize errorCorrection.

(* ================================================================== *)
(** ** The grid, and the text of the SVG document *)

(** [count] consecutive integers from [i]: the values of a loop index. *)
Fixpoint upFrom (i : Z) (count : nat) : list Z :=
  match count with
  | O => []
  | Datatypes.S k => i :: upFrom (i + 1) k
  end.

Definition indices (n : Z) : list Z := upFrom 0 (Z.to_nat n).

(** The cells [(x, y)] of a grid of side [n], row after row. *)
Definition moduleCells (n : Z) : list Probe :=
  flat_map (fun y => map (fun x => (x, y)) (indices n)) (indices n).

Definition isDark (qr : QrCode) (c : Probe) : bool :=
  getModule qr (fst c) (snd c).

(** The dark modules of a symbol, in the order of [moduleCells]. *)
Definition darkModules (qr : QrCode) : list Probe :=
  filter (isDark qr) (moduleCells (getSize qr)).

(** The number of dark modules, counted row by row. *)
Definition countDark (qr : QrCode) : nat :=
  list_sum
    (map (fun y =>
            List.length (filter (fun x => getModule qr x y) (indices (getSize qr))))
         (indices (getSize qr))).

Definition inGrid (n : Z) (c : Probe) : Prop :=
  0 <= fst c < n /\ 0 <= snd c < n.

(** [c] comes before [d] in row-major order: an upper row, or the same row
    and further left. *)
Definition rowMajorBefore (c d : Probe) : Prop :=
  snd c < snd d \/ (snd c = snd d /\ fst c < fst d).

(** The sub-path of the module at [c], shifted by the border. *)
Definition subPath (border : Z) (c : Probe) : string :=
  "M" ++ decimal (fst c + border) ++ "," ++ decimal (snd c + border)
      ++ "h1v1h-1z".

(** What [toSvgString] writes before the sub-path of the module at [c]. *)
Definition separator (c : Probe) : string :=
  if (fst c =? 0) && (snd c =? 0) then EmptyString else " ".

(** The text [toSvgString] writes between the quotes of the attribute [d]. *)
Definition pathData (qr : QrCode) (border : Z) : string :=
  String.concat EmptyString
    (map (fun c => separator c ++ subPath border c) (darkModules qr)).

(** The six elements of the document, for a view box of side [w] and a
    path of data [d]. *)
Definition svgElements (w : Z) (d : string) : list string :=
  [ raw "<?xml version='1.0' encoding='UTF-8'?>";
    raw "<!DOCTYPE svg PUBLIC '-//W3C//DTD SVG 1.1//EN' 'http://www.w3.org/Graphics/SVG/1.1/DTD/svg11.dtd'>";
    raw "<svg xmlns='http://www.w3.org/2000/svg' version='1.1' viewBox='0 0 "
      ++ decimal w ++ " " ++ decimal w ++ raw "' stroke='none'>";
    raw "<rect width='100%' height='100%' fill='#FFFFFF'/>";
    raw "<path d='" ++ d ++ raw "' fill='#000000'/>";
    raw "</svg>" ].

(** The elements written one after the other, nothing in between. *)
Definition svgDocument (qr : QrCode) (border : Z) : string :=
  String.concat EmptyString
    (svgElements (getSize qr + border * 2) (pathData qr border)).

(** The line feed, [U+000A]. *)
Definition lineFeed : ascii := "010"%char.
Definition newline : string := String lineFeed EmptyString.

(** The path data as the specification words it: the sub-paths of the dark
    modules in row-major order, "separated by a single space, with no
    separator before the very first sub-path". *)
Definition specPathData (qr : QrCode) (border : Z) : string :=
  String.concat " " (map (subPath border) (darkModules qr)).

(** The document as the template of the specification shows it: one
    element per line. *)
Definition specSvgDocument (qr : QrCode) (border : Z) : string :=
  String.concat newline
    (svgElements (getSize qr + border * 2) (specPathData qr border)).

(** The painter after a call of [paintQr]: the state the run returned or,
    when the run threw, the state at the call (the encoder is called, and
    throws, before the painter is used). *)
Definition afterCall {Exn R : Type} (before : QPainter R)
    (o : Outcome Exn (QPainter R)) : QPainter R :=
  match o with
  | Returned p => p
  | Thrown _ => before
  end.

(** The rectangle [qrCodePaint] draws for the module at [c], as issued by
    a painter of transform [t], brush [b] and pen [q]. *)
Definition moduleCommand {R : Type} `{QReal R} (t : list (TransformStep R))
    (b : QBrush) (q : QPen) (c : Probe) : DrawCommand R :=
  {| drawnRect :=
       Build_QRectF (qreal_of_int (fst c)) (qreal_of_int (snd c))
                    (qreal_literal 1.04) (qreal_literal 1.04);
     drawnUnder := t; drawnBrush := b; drawnPen := q |}.

(** The two steps [qrCodePaint] adds to the transform. *)
Definition paintSteps {R : Type} `{QReal R} (n border size : Z)
    : list (TransformStep R) :=
  [ ScaleBy (qreal_div (qreal_of_int size) (qreal_of_int (n + 2 * border)))
            (qreal_div (qreal_of_int size) (qreal_of_int (n + 2 * border)));
    TranslateBy (qreal_sub (qreal_of_int border) (qreal_literal 0.02))
                (qreal_sub (qreal_of_int border) (qreal_literal 0.02)) ].

(** The painter [qrCodePaint] leaves behind: the two steps added to the
    transform, one rectangle issued per dark module. *)
Definition painted {R : Type} `{QReal R} (painter : QPainter R)
    (qrCode : QrCode) (border size : Z) : QPainter R :=
  let t :=
    (worldTransform painter ++ paintSteps (getSize qrCode) border size)%list in
  {| worldTransform := t;
     brush := brush painter; pen := pen painter;
     antialiasing := antialiasing painter;
     issued := issued painter ++
       map (moduleCommand t (brush painter) (pen painter))
           (darkModules qrCode) |}.

(** The image [qrCodeToImage] returns: white all over, then one rectangle
    per dark module. *)
Definition rendered {R : Type} `{QReal R} (qrCode : QrCode)
    (border size : Z) : QImage R :=
  {| width := size; height := size; format := Format_ARGB32;
     content :=
       Filled white ::
       map Painted
         (map (moduleCommand (paintSteps (getSize qrCode) border size)
                 {| brushStyle := SolidPattern; brushColor := black |}
                 {| penStyle := NoPen; penColor := black |})
              (darkModules qrCode)) |}.

(* ================================================================== *)
(** ** Concrete symbols and a small encoder, to run the definitions on *)

(** The symbol of one dark module. *)
Definition one_dark : QrCode := symbolOfRows 1 [[true]].

(** A 2 x 2 symbol whose module at (0,0) is light. *)
Definition corner_light : QrCode :=
  symbolOfRows 2 [[false; true]; [true; true]].

(** A 3 x 3 symbol with a dark corner, as every QR symbol has. *)
Definition corner_dark : QrCode :=
  symbolOfRows 3 [[true; false; true]; [false; false; false]; [true; true; false]].

Definition utf8_ascii (s : QString) : QByteArray := list_byte_of_string s.

Inductive EncodingFailure : Type := data_too_long.

(** An encoder that gives [corner_dark] for a text of at most three bytes
    and fails on a longer one. *)
Definition toyEncodeText (b : QByteArray) (ecc : Ecc)
    : Outcome EncodingFailure QrCode :=
  if Z.of_nat (List.length b) <=? 3
  then Returned corner_dark
  else Thrown data_too_long.

(** A painter as a caller may hand it over. *)
Definition callerPainter : QPainter Q :=
  {| worldTransform := [TranslateBy 5%Q 7%Q];
     brush := {| brushStyle := SolidPattern; brushColor := white |};
     pen := newPen SolidLine;
     antialiasing := true;
     issued := [] |}.


(** [corner_dark] with every position outside the grid reading as dark. *)
Definition corner_dark_outside : QrCode :=
  {| getSize := 3;
     getModule := fun x y =>
       if (0 <=? x) && (x <? 3) && (0 <=? y) && (y <? 3)
       then getModule corner_dark x y
       else true |}.

(** A 2 x 2 symbol with no dark module. *)
Definition all_light : QrCode :=
  symbolOfRows 2 [[false; false]; [false; false]].

(* ================================================================== *)
(** ** Device coordinates, in exact arithmetic *)

(** Modelled from the documentation of Qt ([QPainter::scale] and
    [QPainter::translate] transform the coordinate system in force): one
    step applied to a point. *)
Definition applyStep (step : TransformStep Q) (p : Q * Q) : Q * Q :=
  match step with
  | ScaleBy sx sy => (sx * fst p, sy * snd p)%Q
  | TranslateBy dx dy => (fst p + dx, snd p + dy)%Q
  end.

(** The device point of a point drawn under the steps [steps] (oldest
    first): the most recent step moves the point first. *)
Definition toDevice (steps : list (TransformStep Q)) (p : Q * Q) : Q * Q :=
  fold_right applyStep p steps.

(** The two corners of a rectangle. *)
Definition topLeft (r : QRectF Q) : Q * Q := (rectX r, rectY r).
Definition bottomRight (r : QRectF Q) : Q * Q :=
  (rectX r + rectWidth r, rectY r + rectHeight r)%Q.

(** A device point inside the square image of side [size]. *)
Definition insideImage (size : Z) (p : Q * Q) : Prop :=
  (0 <= fst p /\ fst p <= inject_Z size /\ 0 <= snd p /\ snd p <= inject_Z size)%Q.


(** The largest [int]. *)
Definition INT_MAX : Z := 2147483647.

(* ================================================================== *)
(** ** Strings *)

Lemma append_nil_r (s : string) : s ++ EmptyString = s.
Proof. induction s as [|c s IH]; simpl; [reflexivity | now rewrite IH]. Qed.

Lemma append_assoc (s t u : string) : (s ++ t) ++ u = s ++ (t ++ u).
Proof. induction s as [|c s IH]; simpl; [reflexivity | now rewrite IH]. Qed.

Lemma countChar_append (c : ascii) (s t : string) :
  countChar c (s ++ t) = (countChar c s + countChar c t)%nat.
Proof.
  induction s as [|d s IH]; simpl; [reflexivity|].
  rewrite IH. apply Nat.add_assoc.
Qed.

Lemma countChar_concat (c : ascii) (l : list string) :
  countChar c (String.concat EmptyString l)
  = list_sum (map (countChar c) l).
Proof.
  induction l as [|s l IH]; [reflexivity|].
  destruct l as [|t l].
  - simpl. now rewrite Nat.add_0_r.
  - change (String.concat EmptyString (s :: t :: l))
      with (s ++ String.concat EmptyString (t :: l)).
    rewrite countChar_append, IH. reflexivity.
Qed.

(** Joining with the empty separator is plain concatenation. *)
Lemma concat_empty_cons (s : string) (l : list string) :
  String.concat EmptyString (s :: l) = s ++ String.concat EmptyString l.
Proof.
  destruct l as [|t l]; simpl; [now rewrite append_nil_r | reflexivity].
Qed.

(** Joining with a separator: the separator goes before every element but
    the first. *)
Lemma concat_sep_cons (sep s : string) (l : list string) :
  String.concat sep (s :: l)
  = s ++ String.concat EmptyString (map (fun t => sep ++ t) l).
Proof.
  revert s. induction l as [|t l IH]; intros s.
  - simpl. now rewrite append_nil_r.
  - change (String.concat sep (s :: t :: l))
      with (s ++ sep ++ String.concat sep (t :: l)).
    rewrite IH. simpl map. rewrite concat_empty_cons.
    now rewrite append_assoc.
Qed.

(** A number in decimal holds digits and at most a minus sign. *)
Lemma countChar_uint (c : ascii) (d : Decimal.uint) :
  (Ascii.eqb c "-" || (("0" <=? c)%char && (c <=? "9")%char)) = false ->
  countChar c (NilEmpty.string_of_uint d) = O.
Proof.
  intros Hc. apply orb_false_elim in Hc as [_ Hc].
  assert (Hd : forall k : ascii,
             (("0" <=? k)%char && (k <=? "9")%char) = true ->
             Ascii.eqb c k = false).
  { intros k Hk. destruct (Ascii.eqb_spec c k) as [->|]; congruence. }
  induction d; simpl; try reflexivity;
    rewrite IHd, Hd; reflexivity.
Qed.

Lemma countChar_decimal (c : ascii) (n : Z) :
  (Ascii.eqb c "-" || (("0" <=? c)%char && (c <=? "9")%char)) = false ->
  countChar c (decimal n) = O.
Proof.
  intros Hc. pose proof (countChar_uint c) as Hu.
  assert (Hz : forall d, countChar c (NilZero.string_of_uint d) = O).
  { intros d. destruct d; try exact (Hu _ Hc).
    apply orb_false_elim in Hc as [_ Hc]. simpl.
    destruct (Ascii.eqb_spec c "0") as [->|]; [discriminate | reflexivity]. }
  unfold decimal, NilZero.string_of_int.
  destruct (Z.to_int n) as [d|d]; [apply Hz|].
  simpl. rewrite Hz.
  apply orb_false_elim in Hc as [Hm _]. now rewrite Hm.
Qed.

(* ================================================================== *)
(** ** Loops over the grid *)

Lemma in_upFrom (j i : Z) (count : nat) :
  In j (upFrom i count) <-> i <= j < i + Z.of_nat count.
Proof.
  revert i. induction count as [|k IH]; intros i; simpl upFrom.
  - simpl. lia.
  - simpl In. rewrite IH. lia.
Qed.

Lemma in_indices (j n : Z) : In j (indices n) <-> 0 <= j < n.
Proof. unfold indices. rewrite in_upFrom. lia. Qed.

Lemma in_moduleCells (c : Probe) (n : Z) :
  In c (moduleCells n) <-> inGrid n c.
Proof.
  unfold moduleCells, inGrid. rewrite in_flat_map. split.
  - intros (y & Hy & Hc). apply in_map_iff in Hc as (x & <- & Hx).
    apply in_indices in Hy, Hx. simpl. lia.
  - intros [Hx Hy]. exists (snd c). split; [now apply in_indices|].
    apply in_map_iff. exists (fst c). split; [now destruct c|].
    now apply in_indices.
Qed.

Lemma upFrom_sorted (i : Z) (count : nat) :
  StronglySorted Z.lt (upFrom i count).
Proof.
  revert i. induction count as [|k IH]; intros i; simpl; constructor.
  - apply IH.
  - apply Forall_forall. intros j Hj. apply in_upFrom in Hj. lia.
Qed.

Lemma sorted_map_row (y : Z) (xs : list Z) :
  StronglySorted Z.lt xs ->
  StronglySorted rowMajorBefore (map (fun x => (x, y)) xs).
Proof.
  induction 1 as [|x xs Hs IH Hx]; simpl; constructor; [assumption|].
  apply Forall_forall. intros c Hc. apply in_map_iff in Hc as (x' & <- & Hx').
  rewrite Forall_forall in Hx. right. simpl. split; [reflexivity | now apply Hx].
Qed.

Lemma sorted_app {A : Type} (lt : A -> A -> Prop) (l l' : list A) :
  StronglySorted lt l -> StronglySorted lt l' ->
  (forall a b, In a l -> In b l' -> lt a b) ->
  StronglySorted lt (l ++ l').
Proof.
  induction 1 as [|a l Hs IH Ha]; intros Hl' Hcross; simpl; [assumption|].
  constructor.
  - apply IH; [assumption|]. intros; apply Hcross; [now right | assumption].
  - apply Forall_app. split; [assumption|].
    apply Forall_forall. intros b Hb. apply Hcross; [now left | assumption].
Qed.

Lemma sorted_rows (xs ys : list Z) :
  StronglySorted Z.lt xs -> StronglySorted Z.lt ys ->
  StronglySorted rowMajorBefore
    (flat_map (fun y => map (fun x => (x, y)) xs) ys).
Proof.
  intros Hxs. induction 1 as [|y ys Hs IH Hy]; simpl; [constructor|].
  apply sorted_app; [now apply sorted_map_row | assumption |].
  intros a b Ha Hb. apply in_map_iff in Ha as (x & <- & _).
  apply in_flat_map in Hb as (y' & Hy' & Hb).
  apply in_map_iff in Hb as (x' & <- & _).
  rewrite Forall_forall in Hy. left. simpl. now apply Hy.
Qed.

Lemma sorted_filter {A : Type} (lt : A -> A -> Prop) (p : A -> bool)
    (l : list A) :
  StronglySorted lt l -> StronglySorted lt (filter p l).
Proof.
  induction 1 as [|a l Hs IH Ha]; simpl; [constructor|].
  destruct (p a); [|assumption]. constructor; [assumption|].
  rewrite Forall_forall in *. intros b Hb. apply filter_In in Hb as [Hb _].
  now apply Ha.
Qed.

Lemma moduleCells_sorted (n : Z) :
  StronglySorted rowMajorBefore (moduleCells n).
Proof. apply sorted_rows; apply upFrom_sorted. Qed.

Lemma darkModules_sorted (qr : QrCode) :
  StronglySorted rowMajorBefore (darkModules qr).
Proof. apply sorted_filter, moduleCells_sorted. Qed.

Lemma darkModules_spec (qr : QrCode) (c : Probe) :
  In c (darkModules qr)
  <-> inGrid (getSize qr) c /\ getModule qr (fst c) (snd c) = true.
Proof.
  unfold darkModules. rewrite filter_In, in_moduleCells. reflexivity.
Qed.

Lemma filter_flat_map_rows (p : Probe -> bool) (xs ys : list Z) :
  filter p (flat_map (fun y => map (fun x => (x, y)) xs) ys)
  = flat_map (fun y => map (fun x => (x, y)) (filter (fun x => p (x, y)) xs)) ys.
Proof.
  induction ys as [|y ys IH]; cbn [flat_map]; [reflexivity|].
  rewrite filter_app, IH. f_equal. clear IH.
  induction xs as [|x xs IHx]; cbn [map filter]; [reflexivity|].
  destruct (p (x, y)); cbn [map]; rewrite IHx; reflexivity.
Qed.

Lemma length_flat_map_rows (f : Z -> list Z) (ys : list Z) :
  List.length (flat_map (fun y => map (fun x => (x, y)) (f y)) ys)
  = list_sum (map (fun y => List.length (f y)) ys).
Proof.
  induction ys as [|y ys IH]; cbn [flat_map map list_sum fold_right];
    [reflexivity|].
  now rewrite length_app, length_map, IH.
Qed.

Lemma countDark_darkModules (qr : QrCode) :
  List.length (darkModules qr) = countDark qr.
Proof.
  unfold darkModules, moduleCells, countDark.

  rewrite filter_flat_map_rows.
  apply (length_flat_map_rows
           (fun y => filter (fun x => isDark qr (x, y)) (indices (getSize qr)))).
Qed.

Lemma flat_map_singleton {A B : Type} (f : A -> B) (l : list A) :
  flat_map (fun a => [f a]) l = map f l.
Proof. induction l as [|a l IH]; simpl; [reflexivity | now rewrite IH]. Qed.

Section Loops.

Variable Exn : Type.
Variable S : Type.

(** A loop whose body returns and extends the log is a fold. *)
Lemma forFrom_logged (body : Z -> S -> Run Exn S) (f : Z -> S -> S)
    (g : Z -> list Probe) :
  (forall i s log, body i s log = (Returned (f i s), (log ++ g i)%list)) ->
  forall count i s log,
    forFrom count i body s log
    = (Returned (fold_left (fun s i => f i s) (upFrom i count) s),
       (log ++ flat_map g (upFrom i count))%list).
Proof.
  intros Hbody. induction count as [|k IH]; intros i s log; simpl.
  - unfold ret. now rewrite app_nil_r.
  - unfold bind. rewrite Hbody, IH, <- app_assoc. reflexivity.
Qed.

Lemma fold_rows (h : Probe -> S -> S) (p : Probe -> bool) (xs ys : list Z)
    (s : S) :
  fold_left
    (fun s y => fold_left (fun s x => if p (x, y) then h (x, y) s else s) xs s)
    ys s
  = fold_left (fun s c => h c s)
      (filter p (flat_map (fun y => map (fun x => (x, y)) xs) ys)) s.
Proof.
  revert s. induction ys as [|y ys IH]; intros s; simpl; [reflexivity|].
  rewrite IH, filter_app, fold_left_app. do 2 f_equal.
  clear IH. revert s. induction xs as [|x xs IHx]; intros s; simpl;
    [reflexivity|].
  destruct (p (x, y)); simpl; apply IHx.
Qed.

(** The two nested loops of [toSvgString] and of [qrCodePaint]: the
    accessor is called on every cell of the grid, row after row, and the
    action runs on the dark ones. *)
Lemma gridLoop (qr : QrCode) (act : Z -> Z -> S -> S) (n : Z) (s : S)
    (log : list Probe) :
  forInt (Exn:=Exn) n (fun y s =>
    forInt n (fun x s =>
      dark <- callGetModule qr x y ;;
      if dark then ret (act x y s) else ret s) s) s log
  = (Returned
       (fold_left (fun s c => act (fst c) (snd c) s)
                  (filter (isDark qr) (moduleCells n)) s),
     (log ++ moduleCells n)%list).
Proof.
  unfold forInt at 1.
  rewrite (forFrom_logged _
             (fun y s =>
                fold_left
                  (fun s x => if isDark qr (x, y) then act x y s else s)
                  (indices n) s)
             (fun y => map (fun x => (x, y)) (indices n))).
  - unfold moduleCells, indices.
    rewrite (fold_rows (fun c s => act (fst c) (snd c) s)). reflexivity.
  - intros y s' log'. unfold forInt.
    rewrite (forFrom_logged _
               (fun x s => if isDark qr (x, y) then act x y s else s)
               (fun x => [(x, y)])).
    + rewrite flat_map_singleton. reflexivity.
    + intros x s'' log''. unfold bind, callGetModule, isDark, ret. simpl.
      destruct (getModule qr x y); reflexivity.
Qed.

End Loops.

Arguments gridLoop {Exn S} qr act n s log.

(* ================================================================== *)
(** ** What the three projections compute *)

Lemma fold_put_pieces (piece : Probe -> string) (l : list Probe) (sb : string) :
  fold_left (fun sb c => sb ++ piece c) l sb
  = sb ++ String.concat EmptyString (map piece l).
Proof.
  revert sb. induction l as [|c l IH]; intros sb; cbn [fold_left map].
  - simpl. now rewrite append_nil_r.
  - rewrite IH, concat_empty_cons, append_assoc. reflexivity.
Qed.

Lemma fold_left_ext {A B : Type} (f g : A -> B -> A) (l : list B) (a : A) :
  (forall a b, f a b = g a b) -> fold_left f l a = fold_left g l a.
Proof.
  intros Hfg. revert a. induction l as [|b l IH]; intros a; simpl;
    [reflexivity | now rewrite Hfg, IH].
Qed.

(** [toSvgString] returns [svgDocument], after one accessor call per cell
    of the grid. *)
Lemma toSvgString_run (Exn : Type) (qr : QrCode) (border : Z)
    (log : list Probe) :
  toSvgString (Exn:=Exn) qr border log
  = (Returned (svgDocument qr border),
     (log ++ moduleCells (getSize qr))%list).
Proof.
  unfold toSvgString. unfold bind at 1.
  rewrite (gridLoop qr
             (fun x y sb =>
                sb << (if (x =? 0) && (y =? 0) then EmptyString else " ")
                   << "M" <<# (x + border) << "," <<# (y + border)
                   << "h1v1h-1z")).
  unfold ret. f_equal. f_equal.
  rewrite (fold_left_ext _
             (fun sb c => sb ++ (separator c ++ subPath border c))).
  - rewrite fold_put_pieces. fold (darkModules qr). fold (pathData qr border).
    unfold svgDocument, svgElements, put, putInt.
    rewrite !concat_empty_cons. simpl (String.concat _ []).
    rewrite !append_assoc, append_nil_r. reflexivity.
  - intros sb c. unfold put, putInt, separator, subPath.
    rewrite !append_assoc. reflexivity.
Qed.

Section RasterRuns.

Variable Exn : Type.
Context {R : Type} `{QReal R}.

Lemma fold_drawRect (rect : Probe -> QRectF R) (l : list Probe)
    (p : QPainter R) :
  fold_left (fun p c => drawRect p (rect c)) l p
  = {| worldTransform := worldTransform p;
       brush := brush p; pen := pen p; antialiasing := antialiasing p;
       issued := issued p ++
         map (fun c => {| drawnRect := rect c;
                          drawnUnder := worldTransform p;
                          drawnBrush := brush p; drawnPen := pen p |}) l |}.
Proof.
  revert p. induction l as [|c l IH]; intros p; cbn [fold_left map].
  - rewrite app_nil_r. now destruct p.
  - rewrite IH. unfold drawRect. cbn. now rewrite <- app_assoc.
Qed.

Lemma qrCodePaint_run (painter : QPainter R) (qrCode : QrCode)
    (border size : Z) (log : list Probe) :
  qrCodePaint (Exn:=Exn) painter qrCode border size log
  = (Returned (painted painter qrCode border size),
     (log ++ moduleCells (getSize qrCode))%list).
Proof.
  unfold qrCodePaint.
  rewrite (gridLoop qrCode
             (fun x y p =>
                drawRect p
                  (Build_QRectF (qreal_of_int x) (qreal_of_int y)
                                (qreal_literal 1.04) (qreal_literal 1.04)))).
  f_equal. f_equal.
  rewrite (fold_drawRect
             (fun c => Build_QRectF (qreal_of_int (fst c)) (qreal_of_int (snd c))
                                    (qreal_literal 1.04) (qreal_literal 1.04))).
  unfold painted, paintSteps, scale, translate. cbn.
  rewrite <- !app_assoc. reflexivity.
Qed.

Lemma qrCodeToImage_run (qrCode : QrCode) (border size : Z)
    (log : list Probe) :
  qrCodeToImage (Exn:=Exn) qrCode border size log
  = (Returned (rendered qrCode border size),
     (log ++ moduleCells (getSize qrCode))%list).
Proof.
  unfold qrCodeToImage, bind. rewrite qrCodePaint_run. reflexivity.
Qed.

End RasterRuns.

Lemma Returned_inj {Exn A : Type} (a b : A) :
  @Returned Exn A a = Returned b -> a = b.
Proof. intros H. now inversion H. Qed.

Lemma toSvgString_returns (Exn : Type) (qr : QrCode) (border : Z)
    (log : list Probe) :
  fst (toSvgString (Exn:=Exn) qr border log) = Returned (svgDocument qr border).
Proof. now rewrite toSvgString_run. Qed.

(** The symbol of one dark module with a border of one: view box
    [0 0 3 3] and the single sub-path [M1,1h1v1h-1z], on one line. *)
Example toSvgString_one_module :
  toSvgString (Exn:=EncodingFailure) one_dark 1 []
  = (Returned
       (raw "<?xml version='1.0' encoding='UTF-8'?><!DOCTYPE svg PUBLIC '-//W3C//DTD SVG 1.1//EN' 'http://www.w3.org/Graphics/SVG/1.1/DTD/svg11.dtd'><svg xmlns='http://www.w3.org/2000/svg' version='1.1' viewBox='0 0 3 3' stroke='none'><rect width='100%' height='100%' fill='#FFFFFF'/><path d='M1,1h1v1h-1z' fill='#000000'/></svg>"),
     [(0, 0)]).
Proof. reflexivity. Qed.

(** With a light module at (0,0), the path data start with a space. *)
Example toSvgString_corner_light :
  toSvgString (Exn:=EncodingFailure) corner_light 0 []
  = (Returned
       (raw "<?xml version='1.0' encoding='UTF-8'?><!DOCTYPE svg PUBLIC '-//W3C//DTD SVG 1.1//EN' 'http://www.w3.org/Graphics/SVG/1.1/DTD/svg11.dtd'><svg xmlns='http://www.w3.org/2000/svg' version='1.1' viewBox='0 0 2 2' stroke='none'><rect width='100%' height='100%' fill='#FFFFFF'/><path d=' M1,0h1v1h-1z M0,1h1v1h-1z M1,1h1v1h-1z' fill='#000000'/></svg>"),
     [(0, 0); (1, 0); (0, 1); (1, 1)]).
Proof. reflexivity. Qed.

(* ================================================================== *)
(** ** The path data *)

Lemma separator_later (c : Probe) :
  rowMajorBefore (0, 0) c -> separator c = " ".
Proof.
  unfold rowMajorBefore, separator. simpl. intros [Hy | [Hy Hx]].
  - replace (snd c =? 0) with false by (symmetry; apply Z.eqb_neq; lia).
    now rewrite andb_false_r.
  - replace (fst c =? 0) with false by (symmetry; apply Z.eqb_neq; lia).
    reflexivity.
Qed.

Lemma separator_off_origin (c : Probe) :
  c <> (0, 0) -> separator c = " ".
Proof.
  unfold separator. destruct c as [x y]. simpl. intros Hc.
  destruct (Z.eqb_spec x 0) as [->|]; [|reflexivity].
  destruct (Z.eqb_spec y 0) as [->|]; [congruence | reflexivity].
Qed.

Lemma concat_map_ext (f g : Probe -> string) (l : list Probe) :
  Forall (fun c => f c = g c) l ->
  String.concat EmptyString (map f l) = String.concat EmptyString (map g l).
Proof.
  intros Hl. f_equal. apply map_ext_in. now apply Forall_forall.
Qed.

(** With a dark module at the origin, the data are the sub-paths joined by
    single spaces. *)
Lemma pathData_origin_dark (qr : QrCode) (border : Z) :
  getModule qr 0 0 = true -> pathData qr border = specPathData qr border.
Proof.
  intros Hdark. unfold pathData, specPathData.
  pose proof (darkModules_sorted qr) as Hsorted.
  pose proof (darkModules_spec qr) as Hspec.
  destruct (darkModules qr) as [|c rest] eqn:Hlist; [reflexivity|].
  apply StronglySorted_inv in Hsorted as [_ Hafter].
  rewrite Forall_forall in Hafter.
  assert (Hgrid : inGrid (getSize qr) c) by (apply Hspec; now left).
  assert (Hc : c = (0, 0)).
  { assert (Hin : In (0, 0) (c :: rest)).
    { apply Hspec. split; [|exact Hdark].
      unfold inGrid in *. simpl. lia. }
    destruct Hin as [Hin | Hin]; [assumption|].
    apply Hafter in Hin. unfold rowMajorBefore, inGrid in *. simpl in Hin. lia. }
  subst c. cbn [map]. rewrite concat_empty_cons, concat_sep_cons, map_map.
  f_equal. apply concat_map_ext, Forall_forall. intros d Hd.
  now rewrite separator_later by now apply Hafter.
Qed.

(** With a light module at the origin, a space precedes every sub-path,
    the first one too. *)
Lemma pathData_origin_light (qr : QrCode) (border : Z) :
  getModule qr 0 0 = false ->
  pathData qr border
  = String.concat EmptyString
      (map (fun c => " " ++ subPath border c) (darkModules qr)).
Proof.
  intros Hlight. unfold pathData. apply concat_map_ext, Forall_forall.
  intros c Hc. rewrite separator_off_origin; [reflexivity|].
  intros ->. apply darkModules_spec in Hc as [_ Hc]. simpl in Hc. congruence.
Qed.

Lemma countChar_subPath (k : ascii) (border : Z) (c : Probe) :
  (Ascii.eqb k "-" || (("0" <=? k)%char && (k <=? "9")%char)) = false ->
  countChar k (separator c ++ subPath border c)
  = (countChar k (separator c) + countChar k "M" + countChar k ","
     + countChar k "h1v1h-1z")%nat.
Proof.
  intros Hk. unfold subPath.
  rewrite !countChar_append, !countChar_decimal by assumption. lia.
Qed.

Lemma list_sum_const {A : Type} (f : A -> nat) (n : nat) (l : list A) :
  Forall (fun a => f a = n) l -> list_sum (map f l) = (n * List.length l)%nat.
Proof.
  induction 1 as [|a l Ha Hl IH]; simpl; [lia|]. rewrite Ha, IH. lia.
Qed.

(** Every sub-path holds one [M] and one [z]. *)
Lemma countChar_pathData (k : ascii) (qr : QrCode) (border : Z) :
  k = "M"%char \/ k = "z"%char ->
  countChar k (pathData qr border) = List.length (darkModules qr).
Proof.
  intros Hk. unfold pathData. rewrite countChar_concat, map_map.
  rewrite (list_sum_const _ 1%nat); [lia|].
  apply Forall_forall. intros c _.
  rewrite countChar_subPath by (destruct Hk as [-> | ->]; reflexivity).
  unfold separator.
  destruct ((fst c =? 0) && (snd c =? 0)), Hk as [-> | ->]; reflexivity.
Qed.

(* ================================================================== *)
(** ** The SVG projection: claims C1, C2 and C3 *)

(** C1, as the code has it.  For every symbol, border and log, the string
    [toSvgString] returns, which [generateSvgQr] returns for a text encoded
    to that symbol, is the XML declaration, the DOCTYPE, the opening [svg]
    tag with view box [0 0 W W] and [stroke] none, where
    [W = size + 2 * border], the white background rectangle, one [path]
    filled [#000000] that holds the sub-paths, and the closing tag,
    written one after the other with nothing between two elements: the
    document holds no line break. *)
Theorem toSvgString_document (Exn : Type)
    (toUtf8 : QString -> QByteArray)
    (encodeText : QByteArray -> Ecc -> Outcome Exn QrCode)
    (data : QString) (errorCorrection : Ecc)
    (qr : QrCode) (border : Z) (log : list Probe) :
  let document :=
    String.concat EmptyString
      (svgElements (getSize qr + border * 2) (pathData qr border)) in
  fst (toSvgString (Exn:=Exn) qr border log) = Returned document
  /\ (encodeText (toUtf8 data) errorCorrection = Returned qr ->
      fst (generateSvgQr toUtf8 encodeText data border errorCorrection log)
      = Returned document)
  /\ countChar lineFeed document = O.
Proof.
  cbv zeta. fold (svgDocument qr border).
  split; [apply toSvgString_returns|]. split.
  { intros Henc. unfold generateSvgQr, bind, external. rewrite Henc.
    apply toSvgString_returns. }
  unfold svgDocument, svgElements.
  rewrite countChar_concat. cbn [map list_sum fold_right].
  rewrite !countChar_append, !countChar_decimal by reflexivity.
  assert (Hd : countChar lineFeed (pathData qr border) = O).
  { unfold pathData. rewrite countChar_concat, map_map.
    rewrite (list_sum_const _ O); [lia|].
    apply Forall_forall. intros c _.
    rewrite countChar_subPath by reflexivity.
    unfold separator. now destruct ((fst c =? 0) && (snd c =? 0)). }
  rewrite Hd. reflexivity.
Qed.

Lemma toSvgString_document_witness :
  fst (generateSvgQr utf8_ascii toyEncodeText "abc" 1 MEDIUM [])
  = Returned
      (String.concat EmptyString
         (svgElements 5 "M1,1h1v1h-1z M3,1h1v1h-1z M1,3h1v1h-1z M2,3h1v1h-1z")).
Proof.
  apply (toSvgString_document EncodingFailure utf8_ascii toyEncodeText
           "abc" MEDIUM corner_dark 1 []).
  reflexivity.
Defined.

(** C1 as stated fails: for the symbol of one dark module and a border of
    one, the string returned is not the document of the template, which
    puts every element on a line of its own. *)
Lemma toSvgString_not_template :
  fst (toSvgString (Exn:=EncodingFailure) one_dark 1 [])
  <> Returned (specSvgDocument one_dark 1).
Proof.
  rewrite toSvgString_returns. intros H. apply Returned_inj in H. revert H.
  apply String.eqb_neq. vm_compute. reflexivity.
Qed.

(** What precedes the first sub-path, and the sub-paths joined by single
    spaces: the path data of every symbol. *)
Lemma pathData_lead (qr : QrCode) (border : Z) :
  pathData qr border
  = (if getModule qr 0 0 then EmptyString
     else match darkModules qr with [] => EmptyString | _ :: _ => " " end)
    ++ specPathData qr border.
Proof.
  destruct (getModule qr 0 0) eqn:Horigin.
  - now rewrite pathData_origin_dark.
  - rewrite pathData_origin_light by assumption. unfold specPathData.
    destruct (darkModules qr) as [|c rest]; [reflexivity|].
    cbn [map]. rewrite concat_empty_cons, concat_sep_cons, map_map.
    now rewrite append_assoc.
Qed.

(** C2, as the code has it.  For every symbol and every border, the path
    data are the sub-paths of the dark modules in row-major order, two
    consecutive ones separated by exactly one space; nothing precedes the
    first sub-path when the module at (0,0) is dark, and one space precedes
    it when that module is light. *)
Theorem toSvgString_path_order (Exn : Type) (qr : QrCode) (border : Z)
    (log : list Probe) :
  let lead :=
    if getModule qr 0 0 then EmptyString
    else match darkModules qr with [] => EmptyString | _ :: _ => " " end in
  fst (toSvgString (Exn:=Exn) qr border log)
  = Returned
      (String.concat EmptyString
         (svgElements (getSize qr + border * 2)
            (lead ++ String.concat " " (map (subPath border) (darkModules qr)))))
  /\ StronglySorted rowMajorBefore (darkModules qr)
  /\ (forall x y, In (x, y) (darkModules qr)
                  <-> (0 <= x < getSize qr /\ 0 <= y < getSize qr)
                      /\ getModule qr x y = true).
Proof.
  cbv zeta. split; [|split].
  - rewrite toSvgString_returns. unfold svgDocument.
    rewrite pathData_lead. reflexivity.
  - apply darkModules_sorted.
  - intros x y. apply (darkModules_spec qr (x, y)).
Qed.

(** C2 as stated fails: for a symbol whose module at (0,0) is light, the
    path data are not the sub-paths joined by single spaces, since a space
    precedes the first sub-path. *)
Lemma toSvgString_leading_space :
  fst (toSvgString (Exn:=EncodingFailure) corner_light 0 [])
  <> Returned
       (String.concat EmptyString
          (svgElements (getSize corner_light + 0 * 2)
             (String.concat " " (map (subPath 0) (darkModules corner_light))))).
Proof.
  rewrite toSvgString_returns. intros H. apply Returned_inj in H. revert H.
  apply String.eqb_neq. vm_compute. reflexivity.
Qed.

(** C3.  For every symbol and border, the path data hold one sub-path per
    dark module: the sub-path of the dark module at (x,y) is [M], x+border,
    a comma, y+border and [h1v1h-1z]; the dark modules listed are the
    cells of the grid that the accessor reports dark; and the number of
    sub-paths, counted by their [M] or by their [z], is the number of dark
    modules. *)
Theorem toSvgString_subpaths (Exn : Type) (qr : QrCode) (border : Z)
    (log : list Probe) :
  let d :=
    String.concat EmptyString
      (map (fun c =>
              separator c ++ "M" ++ decimal (fst c + border) ++ ","
                ++ decimal (snd c + border) ++ "h1v1h-1z")
           (darkModules qr)) in
  fst (toSvgString (Exn:=Exn) qr border log)
  = Returned (String.concat EmptyString (svgElements (getSize qr + border * 2) d))
  /\ (forall x y, In (x, y) (darkModules qr)
                  <-> (0 <= x < getSize qr /\ 0 <= y < getSize qr)
                      /\ getModule qr x y = true)
  /\ List.length (darkModules qr) = countDark qr
  /\ countChar "M" d = countDark qr
  /\ countChar "z" d = countDark qr.
Proof.
  cbv zeta. fold (subPath border). fold (pathData qr border).
  split; [apply toSvgString_returns|].
  split; [intros x y; apply (darkModules_spec qr (x, y))|].
  split; [apply countDark_darkModules|].
  rewrite <- countDark_darkModules.
  split; apply countChar_pathData; [now left | now right].
Qed.

(* ================================================================== *)
(** ** The entry points, by the answer of the encoder *)

Section EntryRuns.

Variable Exn : Type.
Context {R : Type} `{QReal R}.
Variable toUtf8 : QString -> QByteArray.
Variable encodeText : QByteArray -> Ecc -> Outcome Exn QrCode.
Variables (data : QString) (size borderSize : Z) (errorCorrection : Ecc).

Lemma entry_points_returned (qrCode : QrCode) (painter : QPainter R)
    (log : list Probe) :
  encodeText (toUtf8 data) errorCorrection = Returned qrCode ->
  generateQr toUtf8 encodeText data size borderSize errorCorrection log
  = (Returned (rendered qrCode borderSize size),
     (log ++ moduleCells (getSize qrCode))%list)
  /\ paintQr toUtf8 encodeText painter data size borderSize errorCorrection log
     = (Returned (painted painter qrCode borderSize size),
        (log ++ moduleCells (getSize qrCode))%list)
  /\ generateSvgQr toUtf8 encodeText data borderSize errorCorrection log
     = (Returned (svgDocument qrCode borderSize),
        (log ++ moduleCells (getSize qrCode))%list).
Proof.
  intros Henc. unfold generateQr, paintQr, generateSvgQr, bind, external.
  rewrite Henc.
  now rewrite qrCodeToImage_run, qrCodePaint_run, toSvgString_run.
Qed.

Lemma entry_points_thrown (e : Exn) (painter : QPainter R)
    (log : list Probe) :
  encodeText (toUtf8 data) errorCorrection = Thrown e ->
  generateQr (R:=R) toUtf8 encodeText data size borderSize errorCorrection log
  = (Thrown e, log)
  /\ paintQr toUtf8 encodeText painter data size borderSize errorCorrection log
     = (Thrown e, log)
  /\ generateSvgQr toUtf8 encodeText data borderSize errorCorrection log
     = (Thrown e, log).
Proof.
  intros Henc. unfold generateQr, paintQr, generateSvgQr, bind, external.
  now rewrite Henc.
Qed.

End EntryRuns.

Lemma app_two_neq {A : Type} (l : list A) (a b : A) : (l ++ [a; b])%list <> l.
Proof.
  intros Heq. apply (f_equal (@List.length A)) in Heq.
  rewrite length_app in Heq. simpl in Heq. lia.
Qed.

Lemma exact_scale_below_one (n border size : Z) :
  0 < size -> size < n + 2 * border ->
  (qreal_div (qreal_of_int size) (qreal_of_int (n + 2 * border)) < 1)%Q.
Proof.
  intros Hpos Hlt.
  change ((inject_Z size / inject_Z (n + 2 * border) < 1)%Q).
  apply Qlt_shift_div_r.
  - change 0%Q with (inject_Z 0). rewrite <- Zlt_Qlt. lia.
  - rewrite Qmult_1_l, <- Zlt_Qlt. lia.
Qed.

(* ================================================================== *)
(** ** The raster and paint projections: claims C4, C5, C7, C9 and C10 *)

(** C4.  For every symbol, size, border and painter, [qrCodePaint] scales
    the painter by [size / (N + 2 * border)] on both axes, then translates
    it by [border - 0.02] on both axes, and issues for every dark module at
    (x,y), in row-major order, the rectangle of corner (x,y), width 1.04 and
    height 1.04 under that transform; [qrCodeToImage] issues the same
    rectangles, under these two steps alone, on the image it returns. *)
Theorem qrCodePaint_geometry (Exn R : Type) (QR : QReal R)
    (painter : QPainter R) (qrCode : QrCode) (border size : Z)
    (log : list Probe) :
  let s := qreal_div (qreal_of_int size)
                     (qreal_of_int (getSize qrCode + 2 * border)) in
  let t := qreal_sub (qreal_of_int border) (qreal_literal 0.02) in
  let square (c : Probe) :=
    Build_QRectF (qreal_of_int (fst c)) (qreal_of_int (snd c))
                 (qreal_literal 1.04) (qreal_literal 1.04) in
  (exists p',
      fst (qrCodePaint (Exn:=Exn) painter qrCode border size log) = Returned p'
      /\ worldTransform p'
         = (worldTransform painter ++ [ScaleBy s s; TranslateBy t t])%list
      /\ map drawnRect (issued p')
         = (map drawnRect (issued painter) ++ map square (darkModules qrCode))%list
      /\ map drawnUnder (issued p')
         = (map drawnUnder (issued painter)
            ++ map (fun _ => worldTransform p') (darkModules qrCode))%list)
  /\ (exists image,
         fst (qrCodeToImage (Exn:=Exn) qrCode border size log) = Returned image
         /\ content image =
            Filled white ::
            map (fun c =>
                   Painted {| drawnRect := square c;
                              drawnUnder := [ScaleBy s s; TranslateBy t t];
                              drawnBrush :=
                                {| brushStyle := SolidPattern;
                                   brushColor := black |};
                              drawnPen :=
                                {| penStyle := NoPen; penColor := black |} |})
                (darkModules qrCode)).
Proof.
  cbv zeta. split.
  - exists (painted painter qrCode border size).
    rewrite qrCodePaint_run. unfold painted, paintSteps. cbn.
    rewrite !map_app, !map_map. cbn. repeat split.
  - exists (rendered qrCode border size).
    rewrite qrCodeToImage_run. unfold rendered, paintSteps. cbn.
    rewrite map_map. repeat split.
Qed.

(** C5.  For every text the encoder accepts and every size, border and
    level, [generateQr] returns an image of width [size] and height [size],
    whatever the symbol and the border, whose pixels are all set to white
    before anything is painted: its content is the white fill followed by
    painted rectangles only, one per dark module. *)
Theorem generateQr_image (Exn R : Type) (QR : QReal R)
    (toUtf8 : QString -> QByteArray)
    (encodeText : QByteArray -> Ecc -> Outcome Exn QrCode)
    (data : QString) (size borderSize : Z) (errorCorrection : Ecc)
    (qrCode : QrCode) (log : list Probe) :
  encodeText (toUtf8 data) errorCorrection = Returned qrCode ->
  exists image : QImage R,
    fst (generateQr toUtf8 encodeText data size borderSize errorCorrection log)
    = Returned image
    /\ width image = size /\ height image = size
    /\ exists commands,
         content image = Filled white :: map Painted commands
         /\ List.length commands = countDark qrCode.
Proof.
  intros Henc.
  destruct (entry_points_returned Exn toUtf8 encodeText data size borderSize
              errorCorrection qrCode (beginPaint (newImage 0 0 Format_ARGB32)) log Henc)
    as (Himage & _ & _).
  exists (rendered qrCode borderSize size). rewrite Himage.
  repeat split.
  eexists. split; [reflexivity|].
  now rewrite length_map, countDark_darkModules.
Qed.

Lemma generateQr_image_witness :
  exists image : QImage Q,
    fst (generateQr utf8_ascii toyEncodeText "abc" 300 4 MEDIUM [])
    = Returned image
    /\ width image = 300 /\ height image = 300
    /\ exists commands,
         content image = Filled white :: map Painted commands
         /\ List.length commands = countDark corner_dark.
Proof.
  apply (generateQr_image EncodingFailure Q QReal_exact utf8_ascii
           toyEncodeText "abc" 300 4 MEDIUM corner_dark []).
  reflexivity.
Defined.

(** C7.  For every symbol, border and size, each of the three projections
    returns a result and throws nothing; in particular, when the size is
    positive and below [N + 2 * border], the scale [qrCodePaint] applies is
    below one in exact arithmetic, and the projection returns all the
    same. *)
Theorem rendering_returns (Exn R : Type) (QR : QReal R)
    (painter : QPainter R) (exactPainter : QPainter Q) (qrCode : QrCode)
    (border size : Z) (log : list Probe) :
  (exists document log',
      toSvgString (Exn:=Exn) qrCode border log = (Returned document, log'))
  /\ (exists p' log',
         qrCodePaint (Exn:=Exn) painter qrCode border size log
         = (Returned p', log'))
  /\ (exists image log',
         qrCodeToImage (Exn:=Exn) (R:=R) qrCode border size log
         = (Returned image, log')
         /\ width image = size /\ height image = size)
  /\ (0 < size -> size < getSize qrCode + 2 * border ->
      exists p' log' s t,
        qrCodePaint (Exn:=Exn) exactPainter qrCode border size log
        = (Returned p', log')
        /\ worldTransform p'
           = (worldTransform exactPainter ++ [ScaleBy s s; TranslateBy t t])%list
        /\ (s < 1)%Q).
Proof.
  repeat split.
  - rewrite toSvgString_run. eauto.
  - rewrite qrCodePaint_run. eauto.
  - rewrite qrCodeToImage_run. do 2 eexists. repeat split.
  - intros Hsize Hsmall. rewrite qrCodePaint_run. do 4 eexists.
    split; [reflexivity|]. split; [reflexivity|].
    now apply exact_scale_below_one.
Qed.

Lemma rendering_returns_witness :
  (exists image log',
      qrCodeToImage (Exn:=EncodingFailure) (R:=Q) corner_dark 4 5 []
      = (Returned image, log')
      /\ width image = 5 /\ height image = 5)
  /\ (exists p' log' s t,
         qrCodePaint (Exn:=EncodingFailure) callerPainter corner_dark 4 5 []
         = (Returned p', log')
         /\ worldTransform p'
            = (worldTransform callerPainter ++ [ScaleBy s s; TranslateBy t t])%list
         /\ (s < 1)%Q).
Proof.
  destruct (rendering_returns EncodingFailure Q QReal_exact callerPainter
              callerPainter corner_dark 4 5 [])
    as (_ & _ & Himage & Hscale).
  split; [exact Himage|]. apply Hscale.
  - reflexivity.
  - reflexivity.
Defined.

(** C9.  For every call of [paintQr], the brush, the pen and the
    anti-aliasing hint of the painter are after the call what they were
    before it, and every rectangle the call issues is issued with the brush
    and the pen of the caller; when the encoder returns a symbol, the
    transform of the painter has been scaled and then translated, and is
    left so: it is not the transform of before the call; when the encoder
    throws, the painter is as it was. *)
Theorem paintQr_frame (Exn R : Type) (QR : QReal R)
    (toUtf8 : QString -> QByteArray)
    (encodeText : QByteArray -> Ecc -> Outcome Exn QrCode)
    (painter : QPainter R) (data : QString) (size borderSize : Z)
    (errorCorrection : Ecc) (log : list Probe) :
  let p' :=
    afterCall painter
      (fst (paintQr toUtf8 encodeText painter data size borderSize
              errorCorrection log)) in
  brush p' = brush painter
  /\ pen p' = pen painter
  /\ antialiasing p' = antialiasing painter
  /\ (exists new,
         issued p' = (issued painter ++ new)%list
         /\ Forall (fun d => drawnBrush d = brush painter
                             /\ drawnPen d = pen painter) new)
  /\ (forall qrCode,
         encodeText (toUtf8 data) errorCorrection = Returned qrCode ->
         let s := qreal_div (qreal_of_int size)
                            (qreal_of_int (getSize qrCode + 2 * borderSize)) in
         let t := qreal_sub (qreal_of_int borderSize) (qreal_literal 0.02) in
         worldTransform p'
         = (worldTransform painter ++ [ScaleBy s s; TranslateBy t t])%list
         /\ worldTransform p' <> worldTransform painter)
  /\ (forall e,
         encodeText (toUtf8 data) errorCorrection = Thrown e -> p' = painter).
Proof.
  cbv zeta.
  destruct (encodeText (toUtf8 data) errorCorrection) as [qrCode | e] eqn:Henc.
  - destruct (entry_points_returned Exn toUtf8 encodeText data size borderSize
                errorCorrection qrCode painter log Henc) as (_ & Hpaint & _).
    rewrite Hpaint. cbn [fst afterCall]. unfold painted, paintSteps.
    cbn [brush pen antialiasing issued worldTransform].
    split; [reflexivity|]. split; [reflexivity|]. split; [reflexivity|].
    split.
    + eexists. split; [reflexivity|].
      apply Forall_forall. intros d Hd.
      apply in_map_iff in Hd as (c & <- & _). split; reflexivity.
    + split; [|discriminate].
      intros qrCode' Hsame. injection Hsame as <-.
      split; [reflexivity | apply app_two_neq].
  - destruct (entry_points_thrown Exn toUtf8 encodeText data size borderSize
                errorCorrection e painter log Henc) as (_ & Hpaint & _).
    rewrite Hpaint. cbn [fst afterCall].
    split; [reflexivity|]. split; [reflexivity|]. split; [reflexivity|].
    split.
    + exists []. rewrite app_nil_r. split; [reflexivity | constructor].
    + split; [discriminate | reflexivity].
Qed.

Lemma paintQr_frame_witness :
  let p' :=
    afterCall callerPainter
      (fst (paintQr utf8_ascii toyEncodeText callerPainter "abc" 300 4
              MEDIUM [])) in
  brush p' = {| brushStyle := SolidPattern; brushColor := white |}
  /\ worldTransform p'
     = [TranslateBy 5%Q 7%Q;
        ScaleBy (300 / 11)%Q (300 / 11)%Q;
        TranslateBy (4 - 0.02)%Q (4 - 0.02)%Q]
  /\ worldTransform p' <> worldTransform callerPainter.
Proof.
  destruct (paintQr_frame EncodingFailure Q QReal_exact utf8_ascii
              toyEncodeText callerPainter "abc" 300 4 MEDIUM [])
    as (Hbrush & _ & _ & _ & Htransform & _).
  destruct (Htransform corner_dark eq_refl) as (Hsteps & Hchanged).
  split; [exact Hbrush|]. split; [exact Hsteps | exact Hchanged].
Defined.

(** C10.  For every symbol of side at least one and every border that is
    not negative, the divisor [N + 2 * border] of the scale is positive,
    and every call of the accessor made by [toSvgString] and by
    [qrCodePaint] is at a position (x,y) with [0 <= x < N] and
    [0 <= y < N]. *)
Theorem rendering_safe (Exn R : Type) (QR : QReal R) (painter : QPainter R)
    (qrCode : QrCode) (border size : Z) (log : list Probe) :
  1 <= getSize qrCode -> 0 <= border ->
  (exists divisor p' t,
      0 < divisor
      /\ fst (qrCodePaint (Exn:=Exn) painter qrCode border size log)
         = Returned p'
      /\ worldTransform p'
         = (worldTransform painter
            ++ [ScaleBy (qreal_div (qreal_of_int size) (qreal_of_int divisor))
                        (qreal_div (qreal_of_int size) (qreal_of_int divisor));
                t])%list)
  /\ (exists calls,
         snd (toSvgString (Exn:=Exn) qrCode border log) = (log ++ calls)%list
         /\ Forall (fun c => 0 <= fst c < getSize qrCode
                             /\ 0 <= snd c < getSize qrCode) calls)
  /\ (exists calls,
         snd (qrCodePaint (Exn:=Exn) painter qrCode border size log)
         = (log ++ calls)%list
         /\ Forall (fun c => 0 <= fst c < getSize qrCode
                             /\ 0 <= snd c < getSize qrCode) calls).
Proof.
  intros Hside Hborder.
  assert (Hcells : Forall (fun c => 0 <= fst c < getSize qrCode
                                    /\ 0 <= snd c < getSize qrCode)
                          (moduleCells (getSize qrCode))).
  { apply Forall_forall. intros c Hc. now apply in_moduleCells in Hc. }
  split; [|split].
  - exists (getSize qrCode + 2 * border). rewrite qrCodePaint_run.
    do 2 eexists. split; [lia|]. split; reflexivity.
  - rewrite toSvgString_run. eexists. split; [reflexivity | exact Hcells].
  - rewrite qrCodePaint_run. eexists. split; [reflexivity | exact Hcells].
Qed.

Lemma rendering_safe_witness :
  (exists divisor p' t,
      0 < divisor
      /\ fst (qrCodePaint (Exn:=EncodingFailure) callerPainter corner_dark 0 300 [])
         = Returned p'
      /\ worldTransform p'
         = (worldTransform callerPainter
            ++ [ScaleBy (qreal_div (qreal_of_int 300) (qreal_of_int divisor))
                        (qreal_div (qreal_of_int 300) (qreal_of_int divisor));
                t])%list)
  /\ (exists calls,
         snd (toSvgString (Exn:=EncodingFailure) corner_dark 0 [])
         = ([] ++ calls)%list
         /\ Forall (fun c => 0 <= fst c < getSize corner_dark
                             /\ 0 <= snd c < getSize corner_dark) calls)
  /\ (exists calls,
         snd (qrCodePaint (Exn:=EncodingFailure) callerPainter corner_dark 0 300 [])
         = ([] ++ calls)%list
         /\ Forall (fun c => 0 <= fst c < getSize corner_dark
                             /\ 0 <= snd c < getSize corner_dark) calls).
Proof.
  apply (rendering_safe EncodingFailure Q QReal_exact callerPainter
           corner_dark 0 300 []).
  - simpl. lia.
  - lia.
Defined.

(* ================================================================== *)
(** ** The entry points: claims C6 and C8 *)




(** C8.  When the encoder throws on the text at the requested level, each
    of the three entry points throws the same exception, before any
    accessor call; and an entry point throws nothing else: whatever it
    throws, the encoder threw. *)
Theorem encoding_failure_propagates (Exn R : Type) (QR : QReal R)
    (toUtf8 : QString -> QByteArray)
    (encodeText : QByteArray -> Ecc -> Outcome Exn QrCode)
    (painter : QPainter R) (data : QString) (size borderSize : Z)
    (errorCorrection : Ecc) (log : list Probe) :
  (forall e,
      encodeText (toUtf8 data) errorCorrection = Thrown e ->
      generateQr (R:=R) toUtf8 encodeText data size borderSize errorCorrection log
      = (Thrown e, log)
      /\ paintQr toUtf8 encodeText painter data size borderSize errorCorrection log
         = (Thrown e, log)
      /\ generateSvgQr toUtf8 encodeText data borderSize errorCorrection log
         = (Thrown e, log))
  /\ (forall e,
         fst (generateQr (R:=R) toUtf8 encodeText data size borderSize
                errorCorrection log) = Thrown e
         \/ fst (paintQr toUtf8 encodeText painter data size borderSize
                   errorCorrection log) = Thrown e
         \/ fst (generateSvgQr toUtf8 encodeText data borderSize
                   errorCorrection log) = Thrown e ->
         encodeText (toUtf8 data) errorCorrection = Thrown e).
Proof.
  split.
  - intros e Henc. now apply entry_points_thrown.
  - intros e Hthrown.
    destruct (encodeText (toUtf8 data) errorCorrection) as [qrCode | e'] eqn:Henc.
    + destruct (entry_points_returned Exn toUtf8 encodeText data size borderSize
                  errorCorrection qrCode painter log Henc) as (H1 & H2 & H3).
      rewrite H1, H2, H3 in Hthrown. simpl in Hthrown.
      destruct Hthrown as [H | [H | H]]; discriminate.
    + destruct (entry_points_thrown Exn toUtf8 encodeText data size borderSize
                  errorCorrection e' painter log Henc) as (H1 & H2 & H3).
      rewrite H1, H2, H3 in Hthrown. simpl in Hthrown.
      destruct Hthrown as [H | [H | H]]; injection H as <-; reflexivity.
Qed.

Lemma encoding_failure_propagates_witness :
  generateQr (R:=Q) utf8_ascii toyEncodeText "abcd" 300 4 MEDIUM []
  = (Thrown data_too_long, [])
  /\ paintQr utf8_ascii toyEncodeText callerPainter "abcd" 300 4 MEDIUM []
     = (Thrown data_too_long, [])
  /\ generateSvgQr utf8_ascii toyEncodeText "abcd" 4 MEDIUM []
     = (Thrown data_too_long, []).
Proof.
  apply (encoding_failure_propagates EncodingFailure Q QReal_exact utf8_ascii
           toyEncodeText callerPainter "abcd" 300 4 MEDIUM []).
  reflexivity.
Defined.


(* ================================================================== *)
(** ** Further properties: the accessor calls and the symbol *)

Lemma length_upFrom (i : Z) (count : nat) : List.length (upFrom i count) = count.
Proof.
  revert i. induction count as [|k IH]; intros i; simpl; [reflexivity|].
  now rewrite IH.
Qed.

Lemma length_moduleCells (n : Z) :
  List.length (moduleCells n) = (Z.to_nat n * Z.to_nat n)%nat.
Proof.
  unfold moduleCells.
  rewrite (length_flat_map_rows (fun _ => indices n)).
  rewrite (list_sum_const _ (List.length (indices n))).
  - unfold indices. now rewrite length_upFrom.
  - apply Forall_forall. reflexivity.
Qed.

Lemma rowMajorBefore_irrefl (c : Probe) : ~ rowMajorBefore c c.
Proof. unfold rowMajorBefore. lia. Qed.

Lemma sorted_NoDup (l : list Probe) :
  StronglySorted rowMajorBefore l -> NoDup l.
Proof.
  induction 1 as [|c l Hs IH Hc]; constructor; [|assumption].
  intros Hin. rewrite Forall_forall in Hc.
  exact (rowMajorBefore_irrefl c (Hc c Hin)).
Qed.

(** Two symbols of one side that agree inside the grid have the same dark
    modules. *)
Lemma darkModules_ext (qr1 qr2 : QrCode) :
  getSize qr1 = getSize qr2 ->
  (forall x y, 0 <= x < getSize qr1 -> 0 <= y < getSize qr1 ->
               getModule qr1 x y = getModule qr2 x y) ->
  darkModules qr1 = darkModules qr2.
Proof.
  intros Hside Hsame. unfold darkModules. rewrite <- Hside.
  apply filter_ext_in. intros c Hc. apply in_moduleCells in Hc as [Hx Hy].
  unfold isDark. now apply Hsame.
Qed.

Lemma filter_none {A : Type} (p : A -> bool) (l : list A) :
  (forall a, In a l -> p a = false) -> filter p l = [].
Proof.
  induction l as [|a l IH]; intros Hl; simpl; [reflexivity|].
  rewrite (Hl a) by now left. apply IH. intros b Hb. apply Hl. now right.
Qed.

(** X1.  Each projection calls the accessor once on every cell of the
    grid and nowhere else, row after row: [N * N] calls, no position
    twice, whatever the modules are; the three projections make the same
    calls. *)
Theorem accessor_calls_once_per_cell (Exn R : Type) (QR : QReal R)
    (painter : QPainter R) (qrCode : QrCode) (border size : Z)
    (log : list Probe) :
  exists calls,
    snd (toSvgString (Exn:=Exn) qrCode border log) = (log ++ calls)%list
    /\ snd (qrCodePaint (Exn:=Exn) painter qrCode border size log)
       = (log ++ calls)%list
    /\ snd (qrCodeToImage (Exn:=Exn) (R:=R) qrCode border size log)
       = (log ++ calls)%list
    /\ List.length calls
       = (Z.to_nat (getSize qrCode) * Z.to_nat (getSize qrCode))%nat
    /\ NoDup calls
    /\ StronglySorted rowMajorBefore calls
    /\ (forall x y, In (x, y) calls
                    <-> 0 <= x < getSize qrCode /\ 0 <= y < getSize qrCode).
Proof.
  exists (moduleCells (getSize qrCode)).
  rewrite toSvgString_run, qrCodePaint_run, qrCodeToImage_run.
  split; [reflexivity|]. split; [reflexivity|]. split; [reflexivity|].
  split; [apply length_moduleCells|].
  split; [apply sorted_NoDup, moduleCells_sorted|].
  split; [apply moduleCells_sorted|].
  intros x y. apply (in_moduleCells (x, y)).
Qed.

(** X2.  The projections read a symbol through its side and its modules
    inside the grid only: two symbols of one side that agree at every
    (x,y) with [0 <= x < N] and [0 <= y < N] give the same document, the
    same painter and the same image. *)
Theorem rendering_ignores_outside (Exn R : Type) (QR : QReal R)
    (painter : QPainter R) (qr1 qr2 : QrCode) (border size : Z)
    (log : list Probe) :
  getSize qr1 = getSize qr2 ->
  (forall x y, 0 <= x < getSize qr1 -> 0 <= y < getSize qr1 ->
               getModule qr1 x y = getModule qr2 x y) ->
  toSvgString (Exn:=Exn) qr1 border log = toSvgString qr2 border log
  /\ qrCodePaint (Exn:=Exn) painter qr1 border size log
     = qrCodePaint painter qr2 border size log
  /\ qrCodeToImage (Exn:=Exn) (R:=R) qr1 border size log
     = qrCodeToImage qr2 border size log.
Proof.
  intros Hside Hsame.
  pose proof (darkModules_ext qr1 qr2 Hside Hsame) as Hdark.
  rewrite !toSvgString_run, !qrCodePaint_run, !qrCodeToImage_run.
  unfold svgDocument, pathData, painted, rendered.
  rewrite Hdark, Hside. repeat split.
Qed.

Lemma rendering_ignores_outside_witness :
  toSvgString (Exn:=EncodingFailure) corner_dark 4 []
  = toSvgString corner_dark_outside 4 []
  /\ qrCodePaint (Exn:=EncodingFailure) callerPainter corner_dark 4 300 []
     = qrCodePaint callerPainter corner_dark_outside 4 300 []
  /\ qrCodeToImage (Exn:=EncodingFailure) (R:=Q) corner_dark 4 300 []
     = qrCodeToImage corner_dark_outside 4 300 [].
Proof.
  apply (rendering_ignores_outside EncodingFailure Q QReal_exact callerPainter
           corner_dark corner_dark_outside 4 300 []).
  - reflexivity.
  - intros x y Hx Hy. change (getSize corner_dark) with 3 in Hx, Hy.
    unfold corner_dark_outside. cbn [getModule].
    replace (0 <=? x) with true by (symmetry; apply Z.leb_le; lia).
    replace (x <? 3) with true by (symmetry; apply Z.ltb_lt; lia).
    replace (0 <=? y) with true by (symmetry; apply Z.leb_le; lia).
    replace (y <? 3) with true by (symmetry; apply Z.ltb_lt; lia).
    reflexivity.
Defined.

(** X3.  The three entry points draw the same modules in the same order:
    for a text the encoder accepts, there is one list of cells, the dark
    cells of the symbol in row-major order, such that the rectangles of the
    image of [generateQr], the rectangles [paintQr] issues and the
    sub-paths of the document of [generateSvgQr] are those of these cells,
    one each. *)
Theorem entry_points_same_modules (Exn R : Type) (QR : QReal R)
    (toUtf8 : QString -> QByteArray)
    (encodeText : QByteArray -> Ecc -> Outcome Exn QrCode)
    (painter : QPainter R) (data : QString) (size borderSize : Z)
    (errorCorrection : Ecc) (qrCode : QrCode) (log : list Probe) :
  encodeText (toUtf8 data) errorCorrection = Returned qrCode ->
  let square (c : Probe) :=
    Build_QRectF (qreal_of_int (fst c)) (qreal_of_int (snd c))
                 (qreal_literal 1.04) (qreal_literal 1.04) in
  exists (cells : list Probe) (image : QImage R) (p' : QPainter R),
    (forall x y, In (x, y) cells
                 <-> (0 <= x < getSize qrCode /\ 0 <= y < getSize qrCode)
                     /\ getModule qrCode x y = true)
    /\ StronglySorted rowMajorBefore cells
    /\ fst (generateQr toUtf8 encodeText data size borderSize errorCorrection log)
       = Returned image
    /\ (exists commands,
           content image = Filled white :: map Painted commands
           /\ map drawnRect commands = map square cells)
    /\ fst (paintQr toUtf8 encodeText painter data size borderSize
              errorCorrection log) = Returned p'
    /\ (exists commands,
           issued p' = (issued painter ++ commands)%list
           /\ map drawnRect commands = map square cells)
    /\ fst (generateSvgQr toUtf8 encodeText data borderSize errorCorrection log)
       = Returned
           (String.concat EmptyString
              (svgElements (getSize qrCode + borderSize * 2)
                 (String.concat EmptyString
                    (map (fun c => separator c ++ subPath borderSize c) cells)))).
Proof.
  intros Henc. cbv zeta.
  destruct (entry_points_returned Exn toUtf8 encodeText data size borderSize
              errorCorrection qrCode painter log Henc) as (Himage & Hpaint & Hsvg).
  exists (darkModules qrCode), (rendered qrCode borderSize size),
         (painted painter qrCode borderSize size).
  rewrite Himage, Hpaint, Hsvg.
  split; [intros x y; apply (darkModules_spec qrCode (x, y))|].
  split; [apply darkModules_sorted|].
  split; [reflexivity|]. split.
  { eexists. split; [reflexivity|]. now rewrite map_map. }
  split; [reflexivity|]. split.
  { eexists. split; [reflexivity|]. now rewrite map_map. }
  reflexivity.
Qed.

Lemma entry_points_same_modules_witness :
  exists (cells : list Probe) (image : QImage Q) (p' : QPainter Q),
    (forall x y, In (x, y) cells
                 <-> (0 <= x < getSize corner_dark /\ 0 <= y < getSize corner_dark)
                     /\ getModule corner_dark x y = true)
    /\ StronglySorted rowMajorBefore cells
    /\ fst (generateQr utf8_ascii toyEncodeText "abc" 300 4 MEDIUM [])
       = Returned image
    /\ (exists commands,
           content image = Filled white :: map Painted commands
           /\ map drawnRect commands
              = map (fun c : Z * Z =>
                       Build_QRectF (qreal_of_int (fst c)) (qreal_of_int (snd c))
                                    (qreal_literal 1.04) (qreal_literal 1.04))
                    cells)
    /\ fst (paintQr utf8_ascii toyEncodeText callerPainter "abc" 300 4 MEDIUM [])
       = Returned p'
    /\ (exists commands,
           issued p' = (issued callerPainter ++ commands)%list
           /\ map drawnRect commands
              = map (fun c : Z * Z =>
                       Build_QRectF (qreal_of_int (fst c)) (qreal_of_int (snd c))
                                    (qreal_literal 1.04) (qreal_literal 1.04))
                    cells)
    /\ fst (generateSvgQr utf8_ascii toyEncodeText "abc" 4 MEDIUM [])
       = Returned
           (String.concat EmptyString
              (svgElements (getSize corner_dark + 4 * 2)
                 (String.concat EmptyString
                    (map (fun c => separator c ++ subPath 4 c) cells)))).
Proof.
  apply (entry_points_same_modules EncodingFailure Q QReal_exact utf8_ascii
           toyEncodeText callerPainter "abc" 300 4 MEDIUM corner_dark []).
  reflexivity.
Defined.

(** X4.  A symbol with no dark module inside its grid renders blank: the
    path of the document has empty data, the image holds the white fill and
    nothing else, and the painter issues no rectangle, while its transform
    is scaled and translated all the same. *)
Theorem blank_symbol (Exn R : Type) (QR : QReal R) (painter : QPainter R)
    (qrCode : QrCode) (border size : Z) (log : list Probe) :
  (forall x y, 0 <= x < getSize qrCode -> 0 <= y < getSize qrCode ->
               getModule qrCode x y = false) ->
  fst (toSvgString (Exn:=Exn) qrCode border log)
  = Returned
      (String.concat EmptyString
         (svgElements (getSize qrCode + border * 2) EmptyString))
  /\ (exists image,
         fst (qrCodeToImage (Exn:=Exn) (R:=R) qrCode border size log)
         = Returned image
         /\ content image = [Filled white])
  /\ (exists p',
         fst (qrCodePaint (Exn:=Exn) painter qrCode border size log)
         = Returned p'
         /\ issued p' = issued painter
         /\ worldTransform p'
            = (worldTransform painter
               ++ [ScaleBy
                     (qreal_div (qreal_of_int size)
                                (qreal_of_int (getSize qrCode + 2 * border)))
                     (qreal_div (qreal_of_int size)
                                (qreal_of_int (getSize qrCode + 2 * border)));
                   TranslateBy
                     (qreal_sub (qreal_of_int border) (qreal_literal 0.02))
                     (qreal_sub (qreal_of_int border) (qreal_literal 0.02))])%list).
Proof.
  intros Hlight.
  assert (Hnone : darkModules qrCode = []).
  { unfold darkModules.
    apply filter_none.
    intros c Hc. apply in_moduleCells in Hc as [Hx Hy].
    unfold isDark. now rewrite Hlight. }
  rewrite toSvgString_run, qrCodeToImage_run, qrCodePaint_run.
  unfold svgDocument, pathData, rendered, painted. rewrite Hnone.
  split; [reflexivity|]. split.
  - eexists. split; reflexivity.
  - eexists. split; [reflexivity|]. cbn [issued worldTransform map].
    rewrite app_nil_r. split; reflexivity.
Qed.

Lemma blank_symbol_witness :
  fst (toSvgString (Exn:=EncodingFailure) all_light 1 [])
  = Returned (String.concat EmptyString (svgElements 4 EmptyString))
  /\ (exists image,
         fst (qrCodeToImage (Exn:=EncodingFailure) (R:=Q) all_light 1 300 [])
         = Returned image
         /\ content image = [Filled white])
  /\ (exists p',
         fst (qrCodePaint (Exn:=EncodingFailure) callerPainter all_light 1 300 [])
         = Returned p'
         /\ issued p' = issued callerPainter
         /\ worldTransform p'
            = [TranslateBy 5%Q 7%Q;
               ScaleBy (300 / 4)%Q (300 / 4)%Q;
               TranslateBy (1 - 0.02)%Q (1 - 0.02)%Q]).
Proof.
  apply (blank_symbol EncodingFailure Q QReal_exact callerPainter all_light
           1 300 []).
  intros x y _ _. unfold all_light, symbolOfRows. cbn [getModule].
  destruct (Z.to_nat y) as [|[|[|j]]], (Z.to_nat x) as [|[|[|i]]];
    cbn [nth]; now rewrite ?andb_false_r.
Defined.

(* ================================================================== *)
(** ** Further properties: the document determines the symbol *)

Lemma append_inv_l (s x y : string) : s ++ x = s ++ y -> x = y.
Proof.
  induction s as [|c s IH]; simpl; intros H; [assumption|].
  injection H as H. now apply IH.
Qed.

Lemma countChar_cons_zero (c d : ascii) (s : string) :
  countChar c (String d s) = O -> Ascii.eqb c d = false /\ countChar c s = O.
Proof.
  simpl. destruct (Ascii.eqb c d); [discriminate|]. now split.
Qed.

(** Two texts free of a character, each followed by that character: the
    texts and what follows are the same. *)
Lemma split_at_char (c : ascii) (s s' r r' : string) :
  countChar c s = O -> countChar c s' = O ->
  s ++ String c r = s' ++ String c r' -> s = s' /\ r = r'.
Proof.
  revert s'. induction s as [|a s IH]; intros [|a' s'] Hs Hs' Heq;
    cbn [append] in Heq.
  - injection Heq as Heq. now split.
  - apply countChar_cons_zero in Hs' as [Hc _].
    injection Heq as Ha _. subst a'. now rewrite Ascii.eqb_refl in Hc.
  - apply countChar_cons_zero in Hs as [Hc _].
    injection Heq as Ha _. subst a. now rewrite Ascii.eqb_refl in Hc.
  - apply countChar_cons_zero in Hs as [_ Hs].
    apply countChar_cons_zero in Hs' as [_ Hs'].
    injection Heq as Ha Heq. subst a'.
    destruct (IH s' Hs Hs' Heq) as [-> ->]. now split.
Qed.

Lemma to_int_nonnil (n : Z) :
  Z.to_int n <> Decimal.Pos Decimal.Nil /\ Z.to_int n <> Decimal.Neg Decimal.Nil.
Proof.
  destruct n as [|p|p]; simpl; split; try discriminate;
    intros H; injection H as H;
    exact (DecimalPos.Unsigned.to_uint_nonnil p H).
Qed.

(** Printing in decimal loses nothing. *)
Lemma decimal_inj (n n' : Z) : decimal n = decimal n' -> n = n'.
Proof.
  unfold decimal. intros H. apply (f_equal NilZero.int_of_string) in H.
  rewrite !NilZero.isi in H by apply to_int_nonnil.
  injection H as H. now apply DecimalZ.to_int_inj.
Qed.

Lemma piece_inj (border : Z) (c c' : Probe) (r r' : string) :
  (separator c ++ subPath border c) ++ r
  = (separator c' ++ subPath border c') ++ r' ->
  c = c' /\ r = r'.
Proof.
  unfold subPath. rewrite !append_assoc. cbn [append]. intros H.
  assert (Hbody :
    decimal (fst c + border)
      ++ String "," (decimal (snd c + border) ++ String "h" ("1v1h-1z" ++ r))
    = decimal (fst c' + border)
      ++ String "," (decimal (snd c' + border) ++ String "h" ("1v1h-1z" ++ r'))).
  { unfold separator in H.
    destruct ((fst c =? 0) && (snd c =? 0)), ((fst c' =? 0) && (snd c' =? 0));
      cbn [append] in H; try discriminate H.
    - injection H as H. exact H.
    - injection H as H. exact H. }
  apply split_at_char in Hbody as [Hx Hrest];
    try (apply countChar_decimal; reflexivity).
  apply split_at_char in Hrest as [Hy Hrest];
    try (apply countChar_decimal; reflexivity).
  apply append_inv_l in Hrest.
  apply decimal_inj in Hx, Hy.
  split; [|assumption].
  destruct c as [x y], c' as [x' y']. simpl in Hx, Hy. f_equal; lia.
Qed.

Lemma piece_not_empty (border : Z) (c : Probe) (r : string) :
  (separator c ++ subPath border c) ++ r <> EmptyString.
Proof.
  unfold subPath, separator.
  destruct ((fst c =? 0) && (snd c =? 0)); cbn [append]; discriminate.
Qed.

(** The path data determine the cells they were written for. *)
Lemma pieces_inj (border : Z) (l l' : list Probe) :
  String.concat EmptyString (map (fun c => separator c ++ subPath border c) l)
  = String.concat EmptyString (map (fun c => separator c ++ subPath border c) l') ->
  l = l'.
Proof.
  revert l'. induction l as [|c l IH]; intros [|c' l'] H; cbn [map] in H;
    rewrite ?concat_empty_cons in H.
  - reflexivity.
  - symmetry in H. now apply piece_not_empty in H.
  - now apply piece_not_empty in H.
  - apply piece_inj in H as [-> H]. f_equal. now apply IH.
Qed.

Lemma countChar_pathData_zero (k : ascii) (qr : QrCode) (border : Z) :
  (Ascii.eqb k "-" || (("0" <=? k)%char && (k <=? "9")%char)) = false ->
  countChar k " M,h1v1h-1z" = O ->
  countChar k (pathData qr border) = O.
Proof.
  intros Hk Hfixed. unfold pathData. rewrite countChar_concat, map_map.
  rewrite (list_sum_const _ O); [lia|].
  apply Forall_forall. intros c _.
  rewrite countChar_subPath by assumption.
  change " M,h1v1h-1z" with (" " ++ "M" ++ "," ++ "h1v1h-1z") in Hfixed.
  rewrite !countChar_append in Hfixed.
  unfold separator.
  destruct ((fst c =? 0) && (snd c =? 0)); cbn [countChar] in *; lia.
Qed.

(** A document determines the side of its view box and its path data. *)
Lemma svgElements_inj (w w' : Z) (d d' : string) :
  countChar dquote d = O -> countChar dquote d' = O ->
  String.concat EmptyString (svgElements w d)
  = String.concat EmptyString (svgElements w' d') ->
  w = w' /\ d = d'.
Proof.
  intros Hd Hd'. unfold svgElements. rewrite !concat_empty_cons.
  rewrite !append_assoc. intros H.
  do 3 apply append_inv_l in H.
  cbn [append] in H.
  apply split_at_char in H as [Hw H]; try (apply countChar_decimal; reflexivity).
  apply decimal_inj in Hw. subst w'. split; [reflexivity|].
  do 4 apply append_inv_l in H.
  change (raw "' fill='#000000'/>")
    with (String dquote (raw " fill='#000000'/>")) in H.
  cbn [append] in H.
  now apply split_at_char in H as [H _].
Qed.

(** X5.  The document loses nothing of the symbol: when [toSvgString]
    returns the same document for two symbols and one border, the symbols
    have the same side and the same module at every position of the
    grid. *)
Theorem toSvgString_injective (Exn : Type) (qr1 qr2 : QrCode) (border : Z)
    (log1 log2 : list Probe) :
  fst (toSvgString (Exn:=Exn) qr1 border log1)
  = fst (toSvgString (Exn:=Exn) qr2 border log2) ->
  getSize qr1 = getSize qr2
  /\ (forall x y, 0 <= x < getSize qr1 -> 0 <= y < getSize qr1 ->
                  getModule qr1 x y = getModule qr2 x y).
Proof.
  rewrite !toSvgString_returns. intros H. apply Returned_inj in H.
  apply svgElements_inj in H as [Hw Hd];
    try (apply countChar_pathData_zero; reflexivity).
  assert (Hside : getSize qr1 = getSize qr2) by lia.
  split; [exact Hside|].
  apply pieces_inj in Hd. intros x y Hx Hy.
  pose proof (darkModules_spec qr1 (x, y)) as H1.
  pose proof (darkModules_spec qr2 (x, y)) as H2.
  rewrite Hd in H1. unfold inGrid in H1, H2. cbn [fst snd] in H1, H2.
  rewrite <- Hside in H2.
  destruct (getModule qr1 x y), (getModule qr2 x y); try reflexivity.
  - destruct (proj1 H2 (proj2 H1 (conj (conj Hx Hy) eq_refl))) as [_ Hf].
    discriminate Hf.
  - destruct (proj1 H1 (proj2 H2 (conj (conj Hx Hy) eq_refl))) as [_ Hf].
    discriminate Hf.
Qed.

Lemma toSvgString_injective_witness :
  getSize corner_dark = getSize corner_dark_outside
  /\ (forall x y, 0 <= x < getSize corner_dark -> 0 <= y < getSize corner_dark ->
                  getModule corner_dark x y = getModule corner_dark_outside x y).
Proof.
  apply (toSvgString_injective EncodingFailure corner_dark corner_dark_outside
           4 [] [(7, 7)]).
  reflexivity.
Defined.


(* ================================================================== *)
(** ** Further properties: where the modules land *)

(** X6.  In the document every module keeps clear of the edge of the view
    box by the border: the square of side one that the sub-path of a dark
    module traces from (x+border, y+border) lies between [border] and
    [W - border] on both axes, where [W = N + 2 * border] is the side of
    the view box. *)
Theorem svg_modules_inside_viewBox (Exn : Type) (qrCode : QrCode)
    (border : Z) (log : list Probe) :
  let W := getSize qrCode + border * 2 in
  exists cells,
    fst (toSvgString (Exn:=Exn) qrCode border log)
    = Returned
        (String.concat EmptyString
           (svgElements W
              (String.concat EmptyString
                 (map (fun c =>
                         separator c ++ "M" ++ decimal (fst c + border) ++ ","
                           ++ decimal (snd c + border) ++ "h1v1h-1z")
                      cells))))
    /\ Forall (fun c =>
                 border <= fst c + border /\ fst c + border + 1 <= W - border
                 /\ border <= snd c + border /\ snd c + border + 1 <= W - border)
              cells.
Proof.
  cbv zeta. exists (darkModules qrCode). split; [apply toSvgString_returns|].
  apply Forall_forall. intros c Hc.
  apply darkModules_spec in Hc as [[Hx Hy] _]. lia.
Qed.

Lemma toDevice_paintSteps (n border size : Z) (p : Q * Q) :
  toDevice (paintSteps n border size) p
  = (inject_Z size / inject_Z (n + 2 * border)
       * (fst p + (inject_Z border - 0.02)),
     inject_Z size / inject_Z (n + 2 * border)
       * (snd p + (inject_Z border - 0.02)))%Q.
Proof. reflexivity. Qed.

Lemma inject_Z_pos (z : Z) : 0 < z -> (0 < inject_Z z)%Q.
Proof. intros Hz. change 0%Q with (inject_Z 0). now rewrite <- Zlt_Qlt. Qed.

Lemma exact_scale_pos (size w : Z) :
  0 < size -> 0 < w -> (0 < inject_Z size / inject_Z w)%Q.
Proof.
  intros Hsize Hw. apply Qlt_shift_div_l; [now apply inject_Z_pos|].
  rewrite Qmult_0_l. now apply inject_Z_pos.
Qed.

Lemma exact_scale_spans (size w : Z) :
  0 < w -> (inject_Z size / inject_Z w * inject_Z w == inject_Z size)%Q.
Proof.
  intros Hw. field. intros Hz. apply inject_Z_pos in Hw.
  rewrite Hz in Hw. now apply Qlt_irrefl in Hw.
Qed.

(** A grid coordinate between 0 and the side of the grid with its borders
    lands between 0 and the side of the image. *)
Lemma device_inside (size w : Z) (u : Q) :
  0 < size -> 0 < w -> (0 <= u)%Q -> (u <= inject_Z w)%Q ->
  (0 <= inject_Z size / inject_Z w * u
   /\ inject_Z size / inject_Z w * u <= inject_Z size)%Q.
Proof.
  intros Hsize Hw Hu Huw.
  pose proof (exact_scale_pos size w Hsize Hw) as Hs. split.
  - apply Qmult_le_0_compat; [now apply Qlt_le_weak | assumption].
  - rewrite <- (exact_scale_spans size w Hw) at 2.
    now rewrite Qmult_le_l.
Qed.

Lemma inflated_module_bounds (x n b : Z) :
  0 <= x < n -> 1 <= b ->
  (0 <= inject_Z x + (inject_Z b - 0.02)
   /\ inject_Z x + (inject_Z b - 0.02) <= inject_Z (n + 2 * b)
   /\ 0 <= inject_Z x + 1.04 + (inject_Z b - 0.02)
   /\ inject_Z x + 1.04 + (inject_Z b - 0.02) <= inject_Z (n + 2 * b))%Q.
Proof.
  intros Hx Hb.
  assert (H1 : (0 <= inject_Z x)%Q)
    by (change 0%Q with (inject_Z 0); rewrite <- Zle_Qle; lia).
  assert (H2 : (inject_Z x + 1 <= inject_Z n)%Q)
    by (change 1%Q with (inject_Z 1); rewrite <- inject_Z_plus, <- Zle_Qle; lia).
  assert (H3 : (1 <= inject_Z b)%Q)
    by (change 1%Q with (inject_Z 1); rewrite <- Zle_Qle; lia).
  rewrite inject_Z_plus, inject_Z_mult. change (inject_Z 2) with 2%Q.
  repeat split; lra.
Qed.

(** The commands of the image [qrCodeToImage] returns, in exact
    arithmetic. *)
Lemma rendered_commands (qrCode : QrCode) (border size : Z)
    (d : DrawCommand Q) :
  In (Painted d) (content (rendered qrCode border size)) ->
  exists c,
    In c (darkModules qrCode)
    /\ d = moduleCommand (paintSteps (getSize qrCode) border size)
             {| brushStyle := SolidPattern; brushColor := black |}
             {| penStyle := NoPen; penColor := black |} c.
Proof.
  unfold rendered. cbn [content]. intros [Hd | Hd]; [discriminate|].
  apply in_map_iff in Hd as (d' & Heq & Hd'). injection Heq as ->.
  apply in_map_iff in Hd' as (c & <- & Hc). now exists c.
Qed.

(** X7.  With a border of at least one module and a positive size, every
    rectangle of the image of [qrCodeToImage] lies inside the image: in
    exact arithmetic, both corners of the rectangle of every dark module
    land, under the scale and the translation, between 0 and [size] on
    both axes. *)
Theorem raster_modules_inside_image (Exn : Type) (qrCode : QrCode)
    (border size : Z) (log : list Probe) :
  1 <= border -> 0 < size ->
  exists image : QImage Q,
    fst (qrCodeToImage (Exn:=Exn) qrCode border size log) = Returned image
    /\ forall d,
         In (Painted d) (content image) ->
         insideImage size (toDevice (drawnUnder d) (topLeft (drawnRect d)))
         /\ insideImage size
              (toDevice (drawnUnder d) (bottomRight (drawnRect d))).
Proof.
  intros Hborder Hsize. exists (rendered qrCode border size).
  rewrite qrCodeToImage_run. split; [reflexivity|].
  intros d Hd. apply rendered_commands in Hd as (c & Hc & ->).
  apply darkModules_spec in Hc as [[Hx Hy] _].
  assert (Hw : 0 < getSize qrCode + 2 * border) by lia.
  destruct (inflated_module_bounds (fst c) (getSize qrCode) border Hx Hborder)
    as (Hx1 & Hx2 & Hx3 & Hx4).
  destruct (inflated_module_bounds (snd c) (getSize qrCode) border Hy Hborder)
    as (Hy1 & Hy2 & Hy3 & Hy4).
  cbn [moduleCommand drawnUnder drawnRect]. rewrite !toDevice_paintSteps.
  unfold insideImage, topLeft, bottomRight.
  cbn [fst snd rectX rectY rectWidth rectHeight qreal_of_int qreal_literal
       QReal_exact].
  pose proof (device_inside size _ _ Hsize Hw Hx1 Hx2) as [? ?].
  pose proof (device_inside size _ _ Hsize Hw Hy1 Hy2) as [? ?].
  pose proof (device_inside size _ _ Hsize Hw Hx3 Hx4) as [? ?].
  pose proof (device_inside size _ _ Hsize Hw Hy3 Hy4) as [? ?].
  repeat split; assumption.
Qed.

Lemma raster_modules_inside_image_witness :
  exists image : QImage Q,
    fst (qrCodeToImage (Exn:=EncodingFailure) corner_dark 1 5 [])
    = Returned image
    /\ forall d,
         In (Painted d) (content image) ->
         insideImage 5 (toDevice (drawnUnder d) (topLeft (drawnRect d)))
         /\ insideImage 5 (toDevice (drawnUnder d) (bottomRight (drawnRect d))).
Proof.
  apply (raster_modules_inside_image EncodingFailure corner_dark 1 5 []); lia.
Defined.

(** X8.  Without a border the modules of the outer columns and rows reach
    past the image: in exact arithmetic, for a positive size and a border
    of zero, the rectangle of a dark module in column 0 starts left of 0,
    in row 0 above 0, and the rectangle of a dark module in the last
    column or row ends beyond [size]. *)
Theorem raster_border_zero_overhang (Exn : Type) (qrCode : QrCode)
    (size x y : Z) (log : list Probe) :
  0 < size ->
  0 <= x < getSize qrCode -> 0 <= y < getSize qrCode ->
  getModule qrCode x y = true ->
  exists (image : QImage Q) (d : DrawCommand Q),
    fst (qrCodeToImage (Exn:=Exn) qrCode 0 size log) = Returned image
    /\ In (Painted d) (content image)
    /\ topLeft (drawnRect d) = (inject_Z x, inject_Z y)
    /\ (x = 0 ->
        (fst (toDevice (drawnUnder d) (topLeft (drawnRect d))) < 0)%Q)
    /\ (y = 0 ->
        (snd (toDevice (drawnUnder d) (topLeft (drawnRect d))) < 0)%Q)
    /\ (x = getSize qrCode - 1 ->
        (inject_Z size
         < fst (toDevice (drawnUnder d) (bottomRight (drawnRect d))))%Q)
    /\ (y = getSize qrCode - 1 ->
        (inject_Z size
         < snd (toDevice (drawnUnder d) (bottomRight (drawnRect d))))%Q).
Proof.
  intros Hsize Hx Hy Hdark.
  exists (rendered qrCode 0 size),
         (moduleCommand (paintSteps (getSize qrCode) 0 size)
            {| brushStyle := SolidPattern; brushColor := black |}
            {| penStyle := NoPen; penColor := black |} (x, y)).
  rewrite qrCodeToImage_run. split; [reflexivity|]. split.
  { unfold rendered. cbn [content]. right. apply in_map, in_map.
    apply darkModules_spec. split; [split; assumption | exact Hdark]. }
  split; [reflexivity|].
  assert (Hw : 0 < getSize qrCode + 2 * 0) by lia.
  pose proof (exact_scale_pos size _ Hsize Hw) as Hs.
  pose proof (exact_scale_spans size _ Hw) as Hspan.
  cbn [moduleCommand drawnUnder drawnRect]. rewrite !toDevice_paintSteps.
  unfold topLeft, bottomRight.
  cbn [fst snd rectX rectY rectWidth rectHeight qreal_of_int qreal_literal
       QReal_exact].
  set (s := (inject_Z size / inject_Z (getSize qrCode + 2 * 0))%Q) in *.
  assert (Hlow : (s * (inject_Z 0 + (inject_Z 0 - 0.02)) < 0)%Q).
  { setoid_replace (s * (inject_Z 0 + (inject_Z 0 - 0.02)))%Q
      with (- (0.02) * s)%Q by (change (inject_Z 0) with 0%Q; ring).
    lra. }
  assert (Hhigh :
    (inject_Z size
     < s * (inject_Z (getSize qrCode - 1) + 1.04 + (inject_Z 0 - 0.02)))%Q).
  { replace (getSize qrCode - 1) with (getSize qrCode + 2 * 0 + -1) by lia.
    rewrite (inject_Z_plus (getSize qrCode + 2 * 0) (-1)).
    setoid_replace
      (s * (inject_Z (getSize qrCode + 2 * 0) + inject_Z (-1) + 1.04
            + (inject_Z 0 - 0.02)))%Q
      with (s * inject_Z (getSize qrCode + 2 * 0) + 0.02 * s)%Q
      by (change (inject_Z 0) with 0%Q; change (inject_Z (-1)) with (-1)%Q; ring).
    rewrite Hspan. lra. }
  repeat split; intros ->; assumption.
Qed.

Lemma raster_border_zero_overhang_witness :
  exists (image : QImage Q) (d : DrawCommand Q),
    fst (qrCodeToImage (Exn:=EncodingFailure) corner_dark 0 300 [])
    = Returned image
    /\ In (Painted d) (content image)
    /\ topLeft (drawnRect d) = (inject_Z 0, inject_Z 0)
    /\ (fst (toDevice (drawnUnder d) (topLeft (drawnRect d))) < 0)%Q
    /\ (snd (toDevice (drawnUnder d) (topLeft (drawnRect d))) < 0)%Q.
Proof.
  destruct (raster_border_zero_overhang EncodingFailure corner_dark 300 0 0 [])
    as (image & d & Himage & Hin & Hcorner & Hleft & Htop & _).
  - lia.
  - simpl. lia.
  - simpl. lia.
  - reflexivity.
  - exists image, d. repeat split; try assumption.
    + now apply Hleft.
    + now apply Htop.
Defined.

(* ================================================================== *)
(** ** Further properties: calls in a row, and the range of [int] *)








(** X10.  With a border that fits [quint16] and a symbol of side at most
    [INT_MAX - 131070], no [int] the projections compute leaves the range
    of [int]: neither the doubled border, nor the side of the view box and
    the divisor of the scale, nor a shifted coordinate [x + border] or
    [y + border], nor a loop index after its increment, at any position
    the loops reach. *)
Theorem no_int_overflow (Exn R : Type) (QR : QReal R) (painter : QPainter R)
    (qrCode : QrCode) (border size : Z) (log : list Probe) :
  0 <= border <= 65535 ->
  0 <= getSize qrCode <= INT_MAX - 131070 ->
  0 <= border * 2 <= INT_MAX
  /\ 0 <= getSize qrCode + border * 2 <= INT_MAX
  /\ 0 <= getSize qrCode + 2 * border <= INT_MAX
  /\ exists calls,
       snd (toSvgString (Exn:=Exn) qrCode border log) = (log ++ calls)%list
       /\ snd (qrCodePaint (Exn:=Exn) painter qrCode border size log)
          = (log ++ calls)%list
       /\ Forall (fun c =>
                    0 <= fst c + border <= INT_MAX
                    /\ 0 <= snd c + border <= INT_MAX
                    /\ fst c + 1 <= INT_MAX /\ snd c + 1 <= INT_MAX)
                 calls.
Proof.
  unfold INT_MAX. intros Hborder Hside.
  split; [lia|]. split; [lia|]. split; [lia|].
  exists (moduleCells (getSize qrCode)).
  rewrite toSvgString_run, qrCodePaint_run.
  split; [reflexivity|]. split; [reflexivity|].
  apply Forall_forall. intros c Hc. apply in_moduleCells in Hc as [Hx Hy]. lia.
Qed.

Lemma no_int_overflow_witness :
  0 <= 65535 * 2 <= INT_MAX
  /\ 0 <= getSize corner_dark + 65535 * 2 <= INT_MAX
  /\ 0 <= getSize corner_dark + 2 * 65535 <= INT_MAX
  /\ exists calls,
       snd (toSvgString (Exn:=EncodingFailure) corner_dark 65535 [])
       = ([] ++ calls)%list
       /\ snd (qrCodePaint (Exn:=EncodingFailure) callerPainter corner_dark
                 65535 300 [])
          = ([] ++ calls)%list
       /\ Forall (fun c =>
                    0 <= fst c + 65535 <= INT_MAX
                    /\ 0 <= snd c + 65535 <= INT_MAX
                    /\ fst c + 1 <= INT_MAX /\ snd c + 1 <= INT_MAX)
                 calls.
Proof.
  apply (no_int_overflow EncodingFailure Q QReal_exact callerPainter
           corner_dark 65535 300 []).
  - lia.
  - unfold INT_MAX. simpl. lia.
Defined.
